(** * Health sensor analysis (analyze_health_data.py): model and properties

    The script loads a structured NumPy array, computes three column means
    ([calculate_statistics]), three threshold counts
    ([find_abnormal_readings]), renders a text report ([generate_report])
    and writes it to disk ([save_report]).

    Python floats and NumPy float64 values are IEEE binary64 numbers; they are
    modelled by the standard library's [spec_float] with the operations of
    [SpecFloat] at precision 53 and maximal exponent 1024.  NumPy arrays live
    in a heap of objects, so that views alias the table they are taken from
    and temporaries are allocated next to it. *)

From Stdlib Require Import ZArith QArith Lia String Ascii List.
From Stdlib Require Import Floats.SpecFloat.
From stdpp Require Import base gmap strings list pretty.

Local Open Scope Z_scope.

(** ** IEEE binary64 *)

Module F64.

Definition prec : Z := 53.
Definition emax : Z := 1024.

Definition add : spec_float -> spec_float -> spec_float := SFadd prec emax.
Definition div : spec_float -> spec_float -> spec_float := SFdiv prec emax.

(** Conversion of an integer to the nearest binary64 number (exact up to
    2^53 in magnitude); zero converts to +0.0. *)
Definition of_Z (z : Z) : spec_float := binary_normalize prec emax z 0 false.

Definition is_nan (x : spec_float) : bool :=
  match x with S754_nan => true | _ => false end.

Definition is_finite (x : spec_float) : bool :=
  match x with S754_zero _ | S754_finite _ _ _ => true | _ => false end.

(** The exact value [(-1)^s * m * 2^e] of a finite number. *)
Definition to_Q (x : spec_float) : option Q :=
  match x with
  | S754_zero _ => Some 0%Q
  | S754_finite s m e =>
      Some (Qmake (cond_Zopp s (Z.pos m) * 2 ^ Z.max 0 e) (Z.to_pos (2 ^ Z.max 0 (- e))))
  | _ => None
  end.

End F64.

(** ** Fixed-width integers *)

Definition wrap64 (z : Z) : Z := (z + 2 ^ 63) mod 2 ^ 64 - 2 ^ 63.

Definition int32_range (z : Z) : Prop := - 2 ^ 31 <= z < 2 ^ 31.

(** ** Data model: the structured array built by [load_data] *)

Record Reading := {
  patient_id : string;                 (* 'U10' *)
  timestamp : string;                  (* 'U20' *)
  heart_rate : Z;                      (* 'i4'  *)
  blood_pressure_systolic : Z;         (* 'i4'  *)
  blood_pressure_diastolic : Z;        (* 'i4'  *)
  temperature : spec_float;            (* 'f4'  *)
  glucose_level : Z;                   (* 'i4'  *)
  sensor_id : string                   (* 'U10' *)
}.

(** An 'i4' field holds a 32-bit signed integer, and the number of rows of an
    array is an [intp]. *)
Definition wf_reading (r : Reading) : Prop :=
  int32_range (heart_rate r) /\ int32_range (blood_pressure_systolic r) /\
  int32_range (blood_pressure_diastolic r) /\ int32_range (glucose_level r).

Definition wf_table (rows : list Reading) : Prop :=
  Z.of_nat (length rows) < 2 ^ 63 /\ Forall wf_reading rows.

(** ** The object heap *)

Inductive ndarray :=
  | StructArr (rows : list Reading)
  | BoolArr (bs : list bool).

Definition loc := positive.
Abbreviation heap := (gmap loc ndarray).

Inductive exn :=
  | TypeError
  | KeyError (key : string).

(** Computations read and extend the heap and may raise. *)
Definition M (A : Type) : Type := heap -> exn + (A * heap).

Definition ret {A} (a : A) : M A := fun h => inr (a, h).
Definition bind {A B} (m : M A) (k : A -> M B) : M B :=
  fun h => match m h with
           | inl e => inl e
           | inr (a, h') => k a h'
           end.

Declare Scope py_scope.
Delimit Scope py_scope with py.
Notation "x <- c1 ;; c2" := (bind c1 (fun x => c2))
  (at level 100, c1 at next level, right associativity) : py_scope.
Local Open Scope py_scope.

(** [data['name']] on a structured array is a view: it shares the buffer of
    the array it was taken from. *)
Record view := { base : loc; field : Reading -> Z }.

Definition getitem (data : loc) (f : Reading -> Z) : M view :=
  fun h => match h !! data with
           | Some (StructArr _) => inr ({| base := data; field := f |}, h)
           | _ => inl TypeError
           end.

Definition read_view (v : view) : M (list Z) :=
  fun h => match h !! base v with
           | Some (StructArr rows) => inr (map (field v) rows, h)
           | _ => inl TypeError
           end.

Definition alloc (a : ndarray) : M loc :=
  fun h => let l := fresh (dom h) in inr (l, <[l := a]> h).

(** ** NumPy operations used by the script *)

(** [add.reduce] with a float64 accumulator over the converted elements,
    written as the left-to-right accumulation.  NumPy groups the additions in
    blocks and pairs; every grouping gives the same number as long as the
    additions are exact (see [f64_sum] and [f64_sum_exact] below). *)
Definition np_sum_f64 (xs : list Z) : spec_float :=
  fold_left (fun acc x => F64.add acc (F64.of_Z x)) xs (S754_zero false).

(** [ndarray.mean] of an integer column: float64 sum divided by the count. *)
Definition np_mean (xs : list Z) : spec_float :=
  F64.div (np_sum_f64 xs) (F64.of_Z (Z.of_nat (length xs))).

Definition view_mean (v : view) : M spec_float :=
  xs <- read_view v ;; ret (np_mean xs).

(** [view > c]: a freshly allocated boolean array. *)
Definition view_gt (v : view) (c : Z) : M loc :=
  xs <- read_view v ;; alloc (BoolArr (map (fun x => c <? x) xs)).

(** [sum] of a boolean array: an int64 accumulator. *)
Definition np_sum_bool (bs : list bool) : Z :=
  fold_left (fun acc (b : bool) => wrap64 (acc + (if b then 1 else 0))) bs 0.

Definition bool_sum (l : loc) : M Z :=
  fun h => match h !! l with
           | Some (BoolArr bs) => inr (np_sum_bool bs, h)
           | _ => inl TypeError
           end.

Definition len (data : loc) : M Z :=
  fun h => match h !! data with
           | Some (StructArr rows) => inr (Z.of_nat (length rows), h)
           | Some (BoolArr bs) => inr (Z.of_nat (length bs), h)
           | None => inl TypeError
           end.

(** ** The script *)

Definition calculate_statistics (data : loc) : M (gmap string spec_float) :=
  v1 <- getitem data heart_rate ;;
  avg_heart_rate <- view_mean v1 ;;
  v2 <- getitem data blood_pressure_systolic ;;
  avg_systolic_bp <- view_mean v2 ;;
  v3 <- getitem data glucose_level ;;
  avg_glucose <- view_mean v3 ;;
  ret (<["avg_glucose" := avg_glucose]>
       (<["avg_systolic_bp" := avg_systolic_bp]>
        (<["avg_heart_rate" := avg_heart_rate]> ∅))).

Definition find_abnormal_readings (data : loc) : M (gmap string Z) :=
  v1 <- getitem data heart_rate ;;
  b1 <- view_gt v1 90 ;;
  high_hr_count <- bool_sum b1 ;;
  v2 <- getitem data blood_pressure_systolic ;;
  b2 <- view_gt v2 130 ;;
  high_bp_count <- bool_sum b2 ;;
  v3 <- getitem data glucose_level ;;
  b3 <- view_gt v3 110 ;;
  high_glucose_count <- bool_sum b3 ;;
  ret (<["high_glucose" := high_glucose_count]>
       (<["high_blood_pressure" := high_bp_count]>
        (<["high_heart_rate" := high_hr_count]> ∅))).

(** ** Formatting *)

Definition newline : string := String (ascii_of_nat 10) EmptyString.

(** [str] of a Python or NumPy integer. *)
Definition py_str_int (z : Z) : string := pretty z.

(** Nearest integer to [n / d] ([0 <= n], [0 < d]), ties to even. *)
Definition round_half_even (n d : Z) : Z :=
  let q := n / d in
  match 2 * (n mod d) ?= d with
  | Lt => q
  | Gt => q + 1
  | Eq => if Z.even q then q else q + 1
  end.

(** The number of tenths in [m * 2^e], correctly rounded. *)
Definition tenths (m : positive) (e : Z) : Z :=
  if 0 <=? e then 10 * Z.pos m * 2 ^ e
  else round_half_even (10 * Z.pos m) (2 ^ (- e)).

Definition sign_str (s : bool) : string := if s then "-" else "".

(** [format(x, '.1f')]: the decimal expansion of the exact binary value,
    correctly rounded to one fractional digit. *)
Definition format_1f (x : spec_float) : string :=
  match x with
  | S754_nan => "nan"
  | S754_infinity s => sign_str s +:+ "inf"
  | S754_zero s => sign_str s +:+ "0.0"
  | S754_finite s m e =>
      let t := tenths m e in
      sign_str s +:+ py_str_int (t / 10) +:+ "." +:+ py_str_int (t mod 10)
  end.

Definition dict_get {V} (d : gmap string V) (k : string) : exn + V :=
  match d !! k with
  | Some v => inr v
  | None => inl (KeyError k)
  end.

Notation "x <-? c1 ;; c2" :=
  (match c1 with inl e => inl e | inr x => c2 end)
  (at level 100, c1 at next level, right associativity) : py_scope.

Definition generate_report (stats : gmap string spec_float)
    (abnormal : gmap string Z) (total_readings : Z) : exn + string :=
  let report := [] in
  let report := report ++ ["Health Sensor Data Analysis Report"] in
  let report := report ++ ["=================================="] in
  let report := report ++ [""] in
  let report := report ++ ["Dataset Summary:"] in
  let report := report ++ ["- Total readings: " +:+ py_str_int total_readings] in
  let report := report ++ [""] in
  let report := report ++ ["Average Measurements:"] in
  hr <-? dict_get stats "avg_heart_rate" ;;
  let report := report ++ ["Heart Rate: " +:+ format_1f hr +:+ " bpm"] in
  bp <-? dict_get stats "avg_systolic_bp" ;;
  let report := report ++ ["Systolic BP: " +:+ format_1f bp +:+ " mmHg"] in
  gl <-? dict_get stats "avg_glucose" ;;
  let report := report ++ ["Glucose Level: " +:+ format_1f gl +:+ " mg/dL"] in
  let report := report ++ [""] in
  let report := report ++ ["Abnormal Readings:"] in
  n1 <-? dict_get abnormal "high_heart_rate" ;;
  let report := report ++ ["High Heart Rate (>90): " +:+ py_str_int n1 +:+ " readings"] in
  n2 <-? dict_get abnormal "high_blood_pressure" ;;
  let report := report ++ ["High Blood Pressure (>130): " +:+ py_str_int n2 +:+ " readings"] in
  n3 <-? dict_get abnormal "high_glucose" ;;
  let report := report ++ ["High Glucose (>110): " +:+ py_str_int n3 +:+ " readings"] in
  let report := report ++ [""] in
  inr (String.concat newline report).

(** The part of [main] between loading and saving. *)
Definition analyze (data : loc) : M string :=
  stats <- calculate_statistics data ;;
  abnormal <- find_abnormal_readings data ;;
  total_readings <- len data ;;
  fun h => match generate_report stats abnormal total_readings with
           | inl e => inl e
           | inr r => inr (r, h)
           end.

(** ** The file system and [save_report] *)

(** Paths are POSIX path names.  An entry is found under the list of its
    components, where empty components and "." are dropped and an absolute
    path starts with the root; ".." and symbolic links are not resolved and
    there are no permissions.  The root and the current directory always
    exist; the empty path names nothing. *)

Inductive node :=
  | Dir
  | File (content : string).

Abbreviation filesystem := (gmap (list string) node).

Inductive oserror :=
  | FileNotFoundError
  | FileExistsError
  | NotADirectoryError
  | IsADirectoryError
  | RecursionError.

Definition sep : ascii := "/"%char.

(** [p.rfind(sep) + 1] *)
Fixpoint rfind1 (p : string) : nat :=
  match p with
  | EmptyString => 0
  | String a p' =>
      match rfind1 p' with
      | O => if Ascii.eqb a sep then 1 else 0
      | S i => S (S i)
      end
  end%nat.

Fixpoint all_sep (p : string) : bool :=
  match p with
  | EmptyString => true
  | String a p' => Ascii.eqb a sep && all_sep p'
  end.

(** [p.rstrip(sep)] *)
Fixpoint rstrip (p : string) : string :=
  match p with
  | EmptyString => EmptyString
  | String a p' =>
      match rstrip p' with
      | EmptyString => if Ascii.eqb a sep then EmptyString else String a EmptyString
      | t => String a t
      end
  end.

Definition is_empty (p : string) : bool :=
  match p with EmptyString => true | _ => false end.

(** [posixpath.split] *)
Definition path_split (p : string) : string * string :=
  let i := rfind1 p in
  let head := substring 0 i p in
  let tail := substring i (String.length p - i) p in
  let head := if negb (is_empty head) && negb (all_sep head) then rstrip head else head in
  (head, tail).

(** [posixpath.dirname] *)
Definition dirname (p : string) : string :=
  let i := rfind1 p in
  let head := substring 0 i p in
  if negb (is_empty head) && negb (all_sep head) then rstrip head else head.

(** [p.split(sep)] *)
Fixpoint components (p : string) : list string :=
  match p with
  | EmptyString => [EmptyString]
  | String a p' =>
      if Ascii.eqb a sep then EmptyString :: components p'
      else match components p' with
           | c :: cs => String a c :: cs
           | [] => [String a EmptyString]
           end
  end.

Definition is_abs (p : string) : bool :=
  match p with
  | String a _ => Ascii.eqb a sep
  | EmptyString => false
  end.

Definition path_key (p : string) : list string :=
  (if is_abs p then ["/"] else []) ++
  List.filter (fun c => negb (is_empty c) && negb (String.eqb c ".")) (components p).

Definition key_lookup (fs : filesystem) (k : list string) : option node :=
  match k with
  | [] => Some Dir
  | [c] => if String.eqb c "/" then Some Dir else fs !! k
  | _ => fs !! k
  end.

Definition fs_lookup (fs : filesystem) (p : string) : option node :=
  if is_empty p then None else key_lookup fs (path_key p).

Definition path_exists (fs : filesystem) (p : string) : bool :=
  match fs_lookup fs p with Some _ => true | None => false end.

Definition path_isdir (fs : filesystem) (p : string) : bool :=
  match fs_lookup fs p with Some Dir => true | _ => false end.

(** The directory a new entry goes into must exist and be a directory. *)
Definition check_parent (fs : filesystem) (k : list string) : option oserror :=
  match key_lookup fs (removelast k) with
  | None => Some FileNotFoundError
  | Some (File _) => Some NotADirectoryError
  | Some Dir => None
  end.

Definition IO (A : Type) : Type := filesystem -> (oserror + A) * filesystem.

(** [os.mkdir] *)
Definition mkdir (p : string) : IO unit :=
  fun fs =>
    if is_empty p then (inl FileNotFoundError, fs)
    else if path_exists fs p then (inl FileExistsError, fs)
    else match check_parent fs (path_key p) with
         | Some e => (inl e, fs)
         | None => (inr tt, <[path_key p := Dir]> fs)
         end.

(** [os.makedirs(name, exist_ok=True)].  The recursive call is on the head
    of [name], which is shorter than [name]; the interpreter's recursion
    depth is the fuel. *)
Fixpoint makedirs_fuel (fuel : nat) (name : string) : IO unit :=
  fun fs =>
    match fuel with
    | O => (inl RecursionError, fs)
    | S fuel' =>
        let '(head, tail) := path_split name in
        let '(head, tail) := if is_empty tail then path_split head else (head, tail) in
        let '(r, fs) :=
          if negb (is_empty head) && negb (is_empty tail) && negb (path_exists fs head) then
            match makedirs_fuel fuel' head fs with
            | (inl FileExistsError, fs') | (inr _, fs') => (inr (String.eqb tail "."), fs')
            | (inl e, fs') => (inl e, fs')
            end
          else (inr false, fs) in
        match r with
        | inl e => (inl e, fs)
        | inr true => (inr tt, fs)
        | inr false =>
            match mkdir name fs with
            | (inl e, fs') => if path_isdir fs' name then (inr tt, fs') else (inl e, fs')
            | ok => ok
            end
        end
    end.

Definition makedirs (name : string) : IO unit :=
  makedirs_fuel (S (String.length name)) name.

(** [with open(filename, 'w', encoding='utf-8') as f: f.write(report)] *)
Definition open_write (filename report : string) : IO unit :=
  fun fs =>
    match fs_lookup fs filename with
    | Some Dir => (inl IsADirectoryError, fs)
    | Some (File _) => (inr tt, <[path_key filename := File report]> fs)
    | None =>
        if is_empty filename then (inl FileNotFoundError, fs)
        else match check_parent fs (path_key filename) with
             | Some e => (inl e, fs)
             | None => (inr tt, <[path_key filename := File report]> fs)
             end
    end.

Definition save_report (report filename : string) : IO unit :=
  fun fs =>
    match makedirs (dirname filename) fs with
    | (inl e, fs') => (inl e, fs')
    | (inr _, fs') => open_write filename report fs'
    end.

(** ** Reference notions used in the statements *)

(** Exact integer sum of a column. *)
Definition sum_Z (xs : list Z) : Z := fold_right Z.add 0 xs.

(** Mean as the specification words it: the sum of the column divided by
    the row count, as a binary64 number. *)
Definition spec_mean (xs : list Z) : spec_float :=
  F64.div (F64.of_Z (sum_Z xs)) (F64.of_Z (Z.of_nat (length xs))).

(** Number of elements of a column satisfying a test. *)
Definition count_where (p : Z -> bool) (xs : list Z) : Z :=
  Z.of_nat (length (List.filter p xs)).

(** The value returned by a computation, without the final heap. *)
Definition result_of {A} (r : exn + A * heap) : exn + A :=
  match r with
  | inl e => inl e
  | inr (a, _) => inr a
  end.

Definition stats_keys : gset string :=
  {[ "avg_heart_rate"; "avg_systolic_bp"; "avg_glucose" ]}.

Definition abnormal_keys : gset string :=
  {[ "high_heart_rate"; "high_blood_pressure"; "high_glucose" ]}.

(** The dictionaries the two analyses return for a table. *)
Definition stats_of (rows : list Reading) : gmap string spec_float :=
  <["avg_glucose" := np_mean (map glucose_level rows)]>
  (<["avg_systolic_bp" := np_mean (map blood_pressure_systolic rows)]>
   (<["avg_heart_rate" := np_mean (map heart_rate rows)]> ∅)).

Definition abnormal_of (rows : list Reading) : gmap string Z :=
  <["high_glucose" := np_sum_bool (map (fun x => 110 <? x) (map glucose_level rows))]>
  (<["high_blood_pressure" :=
       np_sum_bool (map (fun x => 130 <? x) (map blood_pressure_systolic rows))]>
   (<["high_heart_rate" := np_sum_bool (map (fun x => 90 <? x) (map heart_rate rows))]> ∅)).

(** ** Sample tables (the scenarios of the specification) *)

Definition reading (hr bp gl : Z) : Reading :=
  {| patient_id := "P001"; timestamp := "2024-01-01T00:00:00";
     heart_rate := hr; blood_pressure_systolic := bp; blood_pressure_diastolic := 80;
     temperature := S754_zero false; glucose_level := gl; sensor_id := "S1" |}.

Definition three_rows : list Reading :=
  [reading 80 120 100; reading 95 135 115; reading 100 128 90].

Definition threshold_row : list Reading := [reading 90 130 110].

Definition heap_with (rows : list Reading) : heap := {[ 1%positive := StructArr rows ]}.

(** The report expected for [three_rows]. *)
Definition three_rows_report : string :=
  String.concat newline
    [ "Health Sensor Data Analysis Report";
      "==================================";
      "";
      "Dataset Summary:";
      "- Total readings: 3";
      "";
      "Average Measurements:";
      "Heart Rate: 91.7 bpm";
      "Systolic BP: 127.7 mmHg";
      "Glucose Level: 101.7 mg/dL";
      "";
      "Abnormal Readings:";
      "High Heart Rate (>90): 2 readings";
      "High Blood Pressure (>130): 1 readings";
      "High Glucose (>110): 1 readings";
      "" ].

(** Does the path contain a directory separator? *)
Fixpoint has_sep (p : string) : bool :=
  match p with
  | EmptyString => false
  | String a p' => Ascii.eqb a sep || has_sep p'
  end.

(** ** The report template of the specification *)

(** The fixed layout, with the seven formatted values as parameters; its
    lines are separated by newlines and the last line is empty. *)
Definition report_template (total hr bp gl n_hr n_bp n_gl : string) : string :=
  "Health Sensor Data Analysis Report" +:+ newline +:+
  "==================================" +:+ newline +:+
  newline +:+
  "Dataset Summary:" +:+ newline +:+
  "- Total readings: " +:+ total +:+ newline +:+
  newline +:+
  "Average Measurements:" +:+ newline +:+
  "Heart Rate: " +:+ hr +:+ " bpm" +:+ newline +:+
  "Systolic BP: " +:+ bp +:+ " mmHg" +:+ newline +:+
  "Glucose Level: " +:+ gl +:+ " mg/dL" +:+ newline +:+
  newline +:+
  "Abnormal Readings:" +:+ newline +:+
  "High Heart Rate (>90): " +:+ n_hr +:+ " readings" +:+ newline +:+
  "High Blood Pressure (>130): " +:+ n_bp +:+ " readings" +:+ newline +:+
  "High Glucose (>110): " +:+ n_gl +:+ " readings" +:+ newline.

Definition is_digit (c : ascii) : bool :=
  (48 <=? nat_of_ascii c)%nat && (nat_of_ascii c <=? 57)%nat.

Fixpoint all_digits (s : string) : bool :=
  match s with
  | EmptyString => true
  | String c s' => is_digit c && all_digits s'
  end.

(** A decimal point followed by exactly one digit. *)
Definition point_digit (s : string) : bool :=
  match s with
  | String p (String d EmptyString) => Ascii.eqb p "." && is_digit d
  | _ => false
  end.

(** One or more digits, a decimal point, one digit. *)
Fixpoint int_point_digit (s : string) : bool :=
  match s with
  | EmptyString => false
  | String c s' => is_digit c && (point_digit s' || int_point_digit s')
  end.

Definition strip_minus (s : string) : string :=
  match s with
  | String c s' => if Ascii.eqb c "-" then s' else s
  | EmptyString => s
  end.

(** A number printed with exactly one digit after the decimal point. *)
Definition one_decimal (s : string) : bool := int_point_digit (strip_minus s).

(** A plain integer: an optional minus sign and one or more digits. *)
Definition plain_int (s : string) : bool :=
  negb (is_empty (strip_minus s)) && all_digits (strip_minus s).

Definition nan_stats : gmap string spec_float :=
  <["avg_glucose" := S754_nan]>
  (<["avg_systolic_bp" := S754_nan]> (<["avg_heart_rate" := S754_nan]> ∅)).

Definition no_abnormal : gmap string Z :=
  <["high_glucose" := 0]> (<["high_blood_pressure" := 0]> (<["high_heart_rate" := 0]> ∅)).

(** ** Notions used for the binary64 facts *)

(** A shift record without round and sticky bits. *)
Definition exact_rec (m : Z) : shr_record :=
  {| shr_m := m; shr_r := false; shr_s := false |}.

(** The binary64 number of sign [s] and magnitude [z], for [0 < z < 2^53]:
    a mantissa of exactly 53 bits. *)
Definition canon (s : bool) (z : Z) : spec_float :=
  S754_finite s (Z.to_pos (z * 2 ^ (53 - Zdigits2 z))) (Zdigits2 z - 53).

Definition canon_Z (z : Z) : spec_float :=
  match z with
  | Z0 => S754_zero false
  | Zpos p => canon false (Zpos p)
  | Zneg p => canon true (Zpos p)
  end.

(** Smallest and largest value of a column. *)
Definition col_min (xs : list Z) : Z :=
  match xs with
  | [] => 0
  | x :: xs' => fold_left Z.min xs' x
  end.

Definition col_max (xs : list Z) : Z :=
  match xs with
  | [] => 0
  | x :: xs' => fold_left Z.max xs' x
  end.


(** A float64 sum of a column in any order of the additions: a left fold as
    in [np_sum_f64], pairwise splitting, blocks, interleaved accumulators. *)
Inductive f64_sum : list Z -> spec_float -> Prop :=
  | f64_sum_nil : f64_sum [] (S754_zero false)
  | f64_sum_one x : f64_sum [x] (F64.of_Z x)
  | f64_sum_app l1 l2 a b :
      f64_sum l1 a -> f64_sum l2 b -> f64_sum (l1 ++ l2) (F64.add a b)
  | f64_sum_perm l l' a : Permutation l l' -> f64_sum l a -> f64_sum l' a.

(** ** The rest of the script: [main] *)

(** Number of line breaks in a text. *)
Fixpoint count_newlines (s : string) : nat :=
  match s with
  | EmptyString => 0%nat
  | String c s' => ((if Ascii.eqb c (ascii_of_nat 10) then 1 else 0) + count_newlines s')%nat
  end.

(** What [main] acts on: the objects, the file system and standard output. *)
Record world := { w_heap : heap; w_fs : filesystem; w_stdout : list string }.

Section Main.

(** [load_data] is a call to [np.genfromtxt]: it reads the file system,
    allocates the table and may raise. *)
Variable load_error : Type.
Variable load_data : string -> filesystem -> heap -> load_error + (loc * heap).

Inductive main_error :=
  | LoadError (e : load_error)
  | AnalysisError (e : exn)
  | SaveError (e : oserror).

Definition main (w : world) : option main_error * world :=
  let filename := "health_data.csv" in
  match load_data filename (w_fs w) (w_heap w) with
  | inl e => (Some (LoadError e), w)
  | inr (data, h) =>
  match calculate_statistics data h with
  | inl e => (Some (AnalysisError e), {| w_heap := h; w_fs := w_fs w; w_stdout := w_stdout w |})
  | inr (stats, h) =>
  match find_abnormal_readings data h with
  | inl e => (Some (AnalysisError e), {| w_heap := h; w_fs := w_fs w; w_stdout := w_stdout w |})
  | inr (abnormal, h) =>
  match len data h with
  | inl e => (Some (AnalysisError e), {| w_heap := h; w_fs := w_fs w; w_stdout := w_stdout w |})
  | inr (total_readings, h) =>
  match generate_report stats abnormal total_readings with
  | inl e => (Some (AnalysisError e), {| w_heap := h; w_fs := w_fs w; w_stdout := w_stdout w |})
  | inr report =>
      let out_file := "output/analysis_report.txt" in
      match save_report report out_file (w_fs w) with
      | (inl e, fs) => (Some (SaveError e), {| w_heap := h; w_fs := fs; w_stdout := w_stdout w |})
      | (inr _, fs) =>
          (None, {| w_heap := h; w_fs := fs;
                    w_stdout := w_stdout w ++
                                ["Analysis complete. Report saved to " +:+ out_file] |})
      end
  end end end end end.

End Main.

Arguments LoadError {load_error} e.
Arguments AnalysisError {load_error} e.
Arguments SaveError {load_error} e.
Arguments main {load_error} load_data w.

(** The first key that [generate_report] looks up and does not find. *)
Definition first_missing_key (stats : gmap string spec_float) (abnormal : gmap string Z)
  : option string :=
  match stats !! "avg_heart_rate" with None => Some "avg_heart_rate" | Some _ =>
  match stats !! "avg_systolic_bp" with None => Some "avg_systolic_bp" | Some _ =>
  match stats !! "avg_glucose" with None => Some "avg_glucose" | Some _ =>
  match abnormal !! "high_heart_rate" with None => Some "high_heart_rate" | Some _ =>
  match abnormal !! "high_blood_pressure" with None => Some "high_blood_pressure" | Some _ =>
  match abnormal !! "high_glucose" with None => Some "high_glucose" | Some _ => None
  end end end end end end.

(** The statistics keys with their columns, and the count keys with their
    columns and thresholds, as the two analyses pair them. *)
Definition stat_columns : list (string * (Reading -> Z)) :=
  [("avg_heart_rate", heart_rate); ("avg_systolic_bp", blood_pressure_systolic);
   ("avg_glucose", glucose_level)].

Definition abnormal_columns : list (string * (Reading -> Z) * Z) :=
  [("high_heart_rate", heart_rate, 90); ("high_blood_pressure", blood_pressure_systolic, 130);
   ("high_glucose", glucose_level, 110)].

(** Entries are only added, and what is added are directories. *)
Definition grows_by_dirs (fs fs' : filesystem) : Prop :=
  (forall k n, fs !! k = Some n -> fs' !! k = Some n) /\
  (forall k n, fs' !! k = Some n -> fs !! k = Some n \/ n = Dir).

(** A single path component: not empty, without separator, and not ".". *)
Definition plain_name (s : string) : bool :=
  negb (is_empty s) && negb (has_sep s) && negb (String.eqb s ".").

(** [d + '/' + f] *)
Definition path_join (d f : string) : string := d +:+ String sep f.

(** The file system after a successful [save_report] to [d/f]. *)
Definition saved (report d f : string) (fs : filesystem) : filesystem :=
  <[ [d; f] := File report ]> (<[ [d] := Dir ]> fs).

(** The report of a table: the template filled with its formatted means,
    its counts and its number of rows. *)
Definition report_of (rows : list Reading) : string :=
  report_template
    (py_str_int (Z.of_nat (length rows)))
    (format_1f (np_mean (map heart_rate rows)))
    (format_1f (np_mean (map blood_pressure_systolic rows)))
    (format_1f (np_mean (map glucose_level rows)))
    (py_str_int (count_where (fun x => 90 <? x) (map heart_rate rows)))
    (py_str_int (count_where (fun x => 130 <? x) (map blood_pressure_systolic rows)))
    (py_str_int (count_where (fun x => 110 <? x) (map glucose_level rows))).

Definition completion_message : string :=
  "Analysis complete. Report saved to output/analysis_report.txt".

(** A sample loader and two sample worlds: the loader needs the named file
    to exist and yields a new table holding [three_rows]. *)
Definition load_three_rows (filename : string) (fs : filesystem) (h : heap)
  : unit + (loc * heap) :=
  match fs_lookup fs filename with
  | Some (File _) =>
      match alloc (StructArr three_rows) h with
      | inr r => inr r
      | inl _ => inl tt
      end
  | _ => inl tt
  end.

Definition csv_only : filesystem := {[ ["health_data.csv"] := File "" ]}.

Definition sample_world : world :=
  {| w_heap := ∅; w_fs := csv_only; w_stdout := [] |}.

Definition blocked_world : world :=
  {| w_heap := ∅; w_fs := <[ ["output"] := File "" ]> csv_only; w_stdout := [] |}.

(** * Properties *)

(** ** Integer counts *)

Lemma wrap64_small z : - 2 ^ 63 <= z < 2 ^ 63 -> wrap64 z = z.
Proof.
  intros Hz. unfold wrap64.
  rewrite Z.mod_small by lia. lia.
Qed.

Lemma np_sum_bool_acc bs : forall acc,
  0 <= acc -> acc + Z.of_nat (length bs) < 2 ^ 63 ->
  fold_left (fun a (b : bool) => wrap64 (a + (if b then 1 else 0))) bs acc
  = acc + Z.of_nat (length (List.filter (fun b => b) bs)).
Proof.
  induction bs as [|b bs IH]; intros acc Hacc Hlen; simpl in *.
  - lia.
  - assert (Hb : 0 <= (if b then 1 else 0) <= 1) by (destruct b; lia).
    rewrite wrap64_small by lia.
    rewrite IH by lia.
    destruct b; simpl; lia.
Qed.

Lemma np_sum_bool_count bs :
  Z.of_nat (length bs) < 2 ^ 63 ->
  np_sum_bool bs = Z.of_nat (length (List.filter (fun b => b) bs)).
Proof.
  intros H. unfold np_sum_bool. rewrite np_sum_bool_acc by lia. lia.
Qed.

Lemma filter_map_bool {A} (p : A -> bool) (xs : list A) :
  length (List.filter (fun b : bool => b) (map p xs)) = length (List.filter p xs).
Proof.
  induction xs as [|x xs IH]; simpl; [reflexivity|].
  destruct (p x); simpl; congruence.
Qed.

Lemma np_sum_bool_gt c xs :
  Z.of_nat (length xs) < 2 ^ 63 ->
  np_sum_bool (map (fun x => c <? x) xs) = count_where (fun x => c <? x) xs.
Proof.
  intros H. rewrite np_sum_bool_count by (rewrite length_map; exact H).
  unfold count_where. now rewrite filter_map_bool.
Qed.

Lemma count_where_split c xs :
  count_where (fun x => c <? x) xs + count_where (fun x => x <=? c) xs
  = Z.of_nat (length xs).
Proof.
  unfold count_where. induction xs as [|x xs IH]; simpl; [reflexivity|].
  destruct (Z.ltb_spec c x), (Z.leb_spec x c); simpl; lia.
Qed.

(** ** Running the two analyses on a heap that holds the table *)

Lemma calculate_statistics_run h data rows :
  h !! data = Some (StructArr rows) ->
  calculate_statistics data h = inr (stats_of rows, h).
Proof.
  intros Hd.
  unfold calculate_statistics, bind, getitem, view_mean, bind, read_view, ret.
  cbn [base field]. repeat (rewrite Hd; cbn [base field]). reflexivity.
Qed.

Lemma fresh_lookup_ne (h : heap) (l : loc) (a : ndarray) :
  h !! l = Some a -> fresh (dom h) <> l.
Proof.
  intros Hl Heq. apply (is_fresh (dom h)). rewrite Heq.
  apply elem_of_dom. eauto.
Qed.

(** One [(data[f] > c).sum()] step: a temporary is allocated, the rest of the
    heap is untouched. *)
Lemma gt_sum_run h data rows f c :
  h !! data = Some (StructArr rows) ->
  exists l, h !! l = None /\
    bind (getitem data f) (fun v => bind (view_gt v c) bool_sum) h
    = inr (np_sum_bool (map (fun x => c <? x) (map f rows)),
           <[l := BoolArr (map (fun x => c <? x) (map f rows))]> h).
Proof.
  intros Hd. exists (fresh (dom h)). split.
  - apply not_elem_of_dom, is_fresh.
  - unfold bind, getitem, view_gt, bind, read_view, alloc, bool_sum.
    cbn [base field]. repeat (rewrite Hd; cbn [base field]).
    rewrite lookup_insert_eq. reflexivity.
Qed.

Lemma find_abnormal_readings_run h data rows :
  h !! data = Some (StructArr rows) ->
  exists h', find_abnormal_readings data h = inr (abnormal_of rows, h') /\
             h ⊆ h' /\ h' !! data = Some (StructArr rows).
Proof.
  intros Hd.
  destruct (gt_sum_run h data rows heart_rate 90 Hd) as (l1 & Hl1 & E1).
  set (h1 := <[l1 := BoolArr (map (fun x => 90 <? x) (map heart_rate rows))]> h) in *.
  assert (Hd1 : h1 !! data = Some (StructArr rows)).
  { unfold h1. rewrite lookup_insert_ne; [exact Hd|congruence]. }
  destruct (gt_sum_run h1 data rows blood_pressure_systolic 130 Hd1) as (l2 & Hl2 & E2).
  set (h2 := <[l2 := BoolArr (map (fun x => 130 <? x) (map blood_pressure_systolic rows))]> h1) in *.
  assert (Hd2 : h2 !! data = Some (StructArr rows)).
  { unfold h2. rewrite lookup_insert_ne; [exact Hd1|congruence]. }
  destruct (gt_sum_run h2 data rows glucose_level 110 Hd2) as (l3 & Hl3 & E3).
  set (h3 := <[l3 := BoolArr (map (fun x => 110 <? x) (map glucose_level rows))]> h2) in *.
  exists h3. split; [|split].
  - unfold find_abnormal_readings.
    unfold bind in *. 
    destruct (getitem data heart_rate h) as [e|[v1 h']] eqn:G1; [discriminate|].
    destruct (view_gt v1 90 h') as [e|[b1 h'']] eqn:V1; [discriminate|].
    rewrite E1.
    destruct (getitem data blood_pressure_systolic h1) as [e|[v2 k']] eqn:G2; [discriminate|].
    destruct (view_gt v2 130 k') as [e|[b2 k'']] eqn:V2; [discriminate|].
    rewrite E2.
    destruct (getitem data glucose_level h2) as [e|[v3 m']] eqn:G3; [discriminate|].
    destruct (view_gt v3 110 m') as [e|[b3 m'']] eqn:V3; [discriminate|].
    rewrite E3. reflexivity.
  - transitivity h1; [apply insert_subseteq; exact Hl1|].
    transitivity h2; [apply insert_subseteq; exact Hl2|].
    apply insert_subseteq; exact Hl3.
  - unfold h3. rewrite lookup_insert_ne; [exact Hd2|congruence].
Qed.

Lemma dom_stats_of rows : dom (stats_of rows) = stats_keys.
Proof.
  unfold stats_of, stats_keys. rewrite !dom_insert_L, dom_empty_L. set_solver.
Qed.

Lemma dom_abnormal_of rows : dom (abnormal_of rows) = abnormal_keys.
Proof.
  unfold abnormal_of, abnormal_keys. rewrite !dom_insert_L, dom_empty_L. set_solver.
Qed.

Lemma abnormal_of_lookup rows :
  Z.of_nat (length rows) < 2 ^ 63 ->
  abnormal_of rows !! "high_heart_rate"
    = Some (count_where (fun x => 90 <? x) (map heart_rate rows)) /\
  abnormal_of rows !! "high_blood_pressure"
    = Some (count_where (fun x => 130 <? x) (map blood_pressure_systolic rows)) /\
  abnormal_of rows !! "high_glucose"
    = Some (count_where (fun x => 110 <? x) (map glucose_level rows)).
Proof.
  intros Hlen. unfold abnormal_of.
  rewrite !np_sum_bool_gt by (rewrite length_map; exact Hlen).
  repeat split; simplify_map_eq; reflexivity.
Qed.

(** ** Threshold Scanner *)

(** C2: for every table the scanner returns a dictionary with exactly the
    three keys high_heart_rate, high_blood_pressure and high_glucose, holding
    the number of rows with heart_rate > 90, blood_pressure_systolic > 130
    and glucose_level > 110 (strict comparisons); a single row sitting at
    the three thresholds gives three zero counts. *)
Theorem find_abnormal_readings_strict_counts (h : heap) (data : loc) (rows : list Reading) :
  h !! data = Some (StructArr rows) ->
  Z.of_nat (length rows) < 2 ^ 63 ->
  exists abn h',
    find_abnormal_readings data h = inr (abn, h') /\
    dom abn = abnormal_keys /\
    size abn = 3%nat /\
    abn !! "high_heart_rate"
      = Some (count_where (fun x => 90 <? x) (map heart_rate rows)) /\
    abn !! "high_blood_pressure"
      = Some (count_where (fun x => 130 <? x) (map blood_pressure_systolic rows)) /\
    abn !! "high_glucose"
      = Some (count_where (fun x => 110 <? x) (map glucose_level rows)) /\
    (forall r, rows = [r] -> heart_rate r = 90 -> blood_pressure_systolic r = 130 ->
       glucose_level r = 110 ->
       abn !! "high_heart_rate" = Some 0 /\ abn !! "high_blood_pressure" = Some 0 /\
       abn !! "high_glucose" = Some 0).
Proof.
  intros Hd Hlen.
  destruct (find_abnormal_readings_run h data rows Hd) as (h' & Hrun & _ & _).
  destruct (abnormal_of_lookup rows Hlen) as (L1 & L2 & L3).
  exists (abnormal_of rows), h'.
  split; [exact Hrun|]. split; [apply dom_abnormal_of|]. split.
  { rewrite <- size_dom, dom_abnormal_of. reflexivity. }
  split; [exact L1|]. split; [exact L2|]. split; [exact L3|].
  intros r -> H1 H2 H3. rewrite L1, L2, L3. simpl.
  rewrite H1, H2, H3. repeat split; reflexivity.
Qed.

(** C5: the count of rows above a threshold plus the number of rows at or
    below it is the table length, which is also what [len] returns as
    total_readings; this holds for the three metrics. *)
Theorem abnormal_count_conservation (h : heap) (data : loc) (rows : list Reading) :
  h !! data = Some (StructArr rows) ->
  Z.of_nat (length rows) < 2 ^ 63 ->
  exists abn h' n_hr n_bp n_gl total,
    find_abnormal_readings data h = inr (abn, h') /\
    len data h' = inr (total, h') /\
    total = Z.of_nat (length rows) /\
    abn !! "high_heart_rate" = Some n_hr /\
    abn !! "high_blood_pressure" = Some n_bp /\
    abn !! "high_glucose" = Some n_gl /\
    n_hr + count_where (fun x => x <=? 90) (map heart_rate rows) = total /\
    n_bp + count_where (fun x => x <=? 130) (map blood_pressure_systolic rows) = total /\
    n_gl + count_where (fun x => x <=? 110) (map glucose_level rows) = total.
Proof.
  intros Hd Hlen.
  destruct (find_abnormal_readings_run h data rows Hd) as (h' & Hrun & _ & Hd').
  destruct (abnormal_of_lookup rows Hlen) as (L1 & L2 & L3).
  eexists (abnormal_of rows), h', _, _, _, _.
  split; [exact Hrun|]. split.
  { unfold len. rewrite Hd'. reflexivity. }
  split; [reflexivity|].
  split; [exact L1|]. split; [exact L2|]. split; [exact L3|].
  rewrite !count_where_split, !length_map. repeat split; reflexivity.
Qed.

Lemma find_abnormal_readings_strict_counts_witness :
  exists abn h',
    find_abnormal_readings 1%positive (heap_with threshold_row) = inr (abn, h') /\
    abn !! "high_heart_rate" = Some 0 /\ abn !! "high_blood_pressure" = Some 0 /\
    abn !! "high_glucose" = Some 0.
Proof.
  destruct (find_abnormal_readings_strict_counts (heap_with threshold_row) 1%positive
              threshold_row) as (abn & h' & Hrun & _ & _ & _ & _ & _ & Hz).
  - reflexivity.
  - simpl. lia.
  - exists abn, h'. split; [exact Hrun|].
    apply (Hz (reading 90 130 110)); reflexivity.
Defined.

Lemma abnormal_count_conservation_witness :
  exists abn h' n_hr,
    find_abnormal_readings 1%positive (heap_with three_rows) = inr (abn, h') /\
    abn !! "high_heart_rate" = Some n_hr /\
    n_hr + count_where (fun x => x <=? 90) (map heart_rate three_rows) = 3.
Proof.
  destruct (abnormal_count_conservation (heap_with three_rows) 1%positive three_rows)
    as (abn & h' & n1 & n2 & n3 & total & Hrun & _ & Ht & L1 & _ & _ & E1 & _ & _).
  - reflexivity.
  - simpl. lia.
  - exists abn, h', n1. split; [exact Hrun|]. split; [exact L1|].
    rewrite E1, Ht. reflexivity.
Defined.

(** ** Purity of the two analyses *)

Lemma calculate_statistics_no_table h data :
  (forall rows, h !! data <> Some (StructArr rows)) ->
  calculate_statistics data h = inl TypeError.
Proof.
  intros Hn. unfold calculate_statistics, bind, getitem.
  destruct (h !! data) as [[rows|bs]|]; try reflexivity.
  now destruct (Hn rows).
Qed.

Lemma find_abnormal_readings_no_table h data :
  (forall rows, h !! data <> Some (StructArr rows)) ->
  find_abnormal_readings data h = inl TypeError.
Proof.
  intros Hn. unfold find_abnormal_readings, bind, getitem.
  destruct (h !! data) as [[rows|bs]|]; try reflexivity.
  now destruct (Hn rows).
Qed.

(** C7: the aggregator and the scanner are deterministic: on two heaps that
    hold the same table their results are identical, and running the scanner
    again on the heap left by a first run returns the same counts. *)
Theorem analyses_deterministic (data : loc) (h1 h2 : heap) :
  h1 !! data = h2 !! data ->
  result_of (calculate_statistics data h1) = result_of (calculate_statistics data h2) /\
  result_of (find_abnormal_readings data h1) = result_of (find_abnormal_readings data h2) /\
  (forall s h', calculate_statistics data h1 = inr (s, h') ->
     result_of (calculate_statistics data h') = inr s) /\
  (forall a h', find_abnormal_readings data h1 = inr (a, h') ->
     result_of (find_abnormal_readings data h') = inr a).
Proof.
  intros Heq.
  destruct (h1 !! data) as [[rows|bs]|] eqn:H1.
  - symmetry in Heq.
    destruct (find_abnormal_readings_run h1 data rows H1) as (k1 & R1 & _ & Hk1).
    destruct (find_abnormal_readings_run h2 data rows Heq) as (k2 & R2 & _ & _).
    destruct (find_abnormal_readings_run k1 data rows Hk1) as (k3 & R3 & _ & _).
    rewrite !(calculate_statistics_run _ _ rows) by assumption.
    rewrite R1, R2. repeat split.
    + intros s h' E. injection E as <- <-.
      now rewrite (calculate_statistics_run _ _ rows).
    + intros a h' E. injection E as <- <-. now rewrite R3.
  - rewrite !calculate_statistics_no_table, !find_abnormal_readings_no_table
      by (intros rows; congruence).
    repeat split; intros; discriminate.
  - rewrite !calculate_statistics_no_table, !find_abnormal_readings_no_table
      by (intros rows; congruence).
    repeat split; intros; discriminate.
Qed.

Lemma analyses_deterministic_witness :
  result_of (calculate_statistics 1%positive (heap_with three_rows))
  = result_of (calculate_statistics 1%positive
                 (<[2%positive := BoolArr [true]]> (heap_with three_rows))).
Proof.
  destruct (analyses_deterministic 1%positive (heap_with three_rows)
              (<[2%positive := BoolArr [true]]> (heap_with three_rows))) as (E & _).
  - reflexivity.
  - exact E.
Defined.

(** C8: the table is read-only: the aggregator returns the heap it was
    given, and the scanner only adds its temporaries, so every object that
    was in the heap, the table with all its rows and fields included, is
    unchanged afterwards. *)
Theorem analyses_leave_table_unchanged (h : heap) (data : loc) (rows : list Reading) :
  h !! data = Some (StructArr rows) ->
  (exists s, calculate_statistics data h = inr (s, h)) /\
  (exists a h', find_abnormal_readings data h = inr (a, h') /\
     h' !! data = Some (StructArr rows) /\
     forall l o, h !! l = Some o -> h' !! l = Some o).
Proof.
  intros Hd. split.
  - exists (stats_of rows). now apply calculate_statistics_run.
  - destruct (find_abnormal_readings_run h data rows Hd) as (h' & R & Hsub & Hd').
    exists (abnormal_of rows), h'. split; [exact R|]. split; [exact Hd'|].
    intros l o Hl. eapply lookup_weaken; eassumption.
Qed.

Lemma analyses_leave_table_unchanged_witness :
  exists a h', find_abnormal_readings 1%positive (heap_with three_rows) = inr (a, h') /\
     h' !! 1%positive = Some (StructArr three_rows).
Proof.
  destruct (analyses_leave_table_unchanged (heap_with three_rows) 1%positive three_rows)
    as (_ & a & h' & R & Hd & _).
  - reflexivity.
  - exists a, h'. split; assumption.
Defined.

(** ** The whole analysis *)

Lemma analyze_run h data rows :
  h !! data = Some (StructArr rows) ->
  result_of (analyze data h)
  = generate_report (stats_of rows) (abnormal_of rows) (Z.of_nat (length rows)).
Proof.
  intros Hd.
  destruct (find_abnormal_readings_run h data rows Hd) as (h' & R & _ & Hd').
  unfold analyze, bind. rewrite (calculate_statistics_run h data rows Hd), R.
  unfold len. rewrite Hd'.
  destruct (generate_report _ _ _); reflexivity.
Qed.

(** ** Empty table *)

(** C4: on a table without rows the aggregator does not raise: it returns
    its three entries, and each of them is NaN (0.0 / 0). *)
Theorem calculate_statistics_empty_table (h : heap) (data : loc) :
  h !! data = Some (StructArr []) ->
  exists s,
    calculate_statistics data h = inr (s, h) /\
    dom s = stats_keys /\
    s !! "avg_heart_rate" = Some S754_nan /\
    s !! "avg_systolic_bp" = Some S754_nan /\
    s !! "avg_glucose" = Some S754_nan.
Proof.
  intros Hd. exists (stats_of []).
  split; [now apply calculate_statistics_run|].
  split; [apply dom_stats_of|].
  repeat split; reflexivity.
Qed.

Lemma calculate_statistics_empty_table_witness :
  exists s,
    calculate_statistics 1%positive (heap_with []) = inr (s, heap_with []) /\
    F64.is_nan <$> s !! "avg_heart_rate" = Some true.
Proof.
  destruct (calculate_statistics_empty_table (heap_with []) 1%positive)
    as (s & R & _ & L & _).
  - reflexivity.
  - exists s. split; [exact R|]. rewrite L. reflexivity.
Defined.

(** ** Scenario 1 *)

(** C9: for a table of three rows with heart_rate = [80, 95, 100],
    blood_pressure_systolic = [120, 135, 128] and glucose_level =
    [100, 115, 90], the averages print as 91.7, 127.7 and 101.7, the counts
    are 2, 1 and 1, total_readings is 3, and the report is the expected
    text. *)
Theorem three_row_scenario (h : heap) (data : loc) (rows : list Reading) :
  h !! data = Some (StructArr rows) ->
  map heart_rate rows = [80; 95; 100] ->
  map blood_pressure_systolic rows = [120; 135; 128] ->
  map glucose_level rows = [100; 115; 90] ->
  exists stats abn h',
    calculate_statistics data h = inr (stats, h) /\
    find_abnormal_readings data h = inr (abn, h') /\
    len data h' = inr (3, h') /\
    format_1f <$> stats !! "avg_heart_rate" = Some "91.7" /\
    format_1f <$> stats !! "avg_systolic_bp" = Some "127.7" /\
    format_1f <$> stats !! "avg_glucose" = Some "101.7" /\
    abn !! "high_heart_rate" = Some 2 /\
    abn !! "high_blood_pressure" = Some 1 /\
    abn !! "high_glucose" = Some 1 /\
    result_of (analyze data h) = inr three_rows_report.
Proof.
  intros Hd H1 H2 H3.
  destruct (find_abnormal_readings_run h data rows Hd) as (h' & R & _ & Hd').
  assert (Hlen : length rows = 3%nat).
  { rewrite <- (length_map heart_rate), H1. reflexivity. }
  exists (stats_of rows), (abnormal_of rows), h'.
  split; [now apply calculate_statistics_run|].
  split; [exact R|].
  split; [unfold len; rewrite Hd', Hlen; reflexivity|].
  rewrite (analyze_run h data rows Hd), Hlen.
  unfold stats_of, abnormal_of. rewrite H1, H2, H3.
  repeat split; vm_compute; reflexivity.
Qed.

Lemma three_row_scenario_witness :
  result_of (analyze 1%positive (heap_with three_rows)) = inr three_rows_report.
Proof.
  destruct (three_row_scenario (heap_with three_rows) 1%positive three_rows)
    as (s & a & h' & _ & _ & _ & _ & _ & _ & _ & _ & _ & E);
    [reflexivity .. | exact E].
Defined.

(** ** Saving the report *)

Lemma rfind1_no_sep p : has_sep p = false -> rfind1 p = 0%nat.
Proof.
  induction p as [|a p IH]; simpl; [reflexivity|].
  intros H. apply orb_false_iff in H as [Ha Hp].
  rewrite (IH Hp), Ha. reflexivity.
Qed.

Lemma substring_0_0 p : substring 0 0 p = EmptyString.
Proof. destruct p; reflexivity. Qed.

Lemma dirname_no_sep p : has_sep p = false -> dirname p = EmptyString.
Proof.
  intros H. unfold dirname. rewrite (rfind1_no_sep p H), substring_0_0.
  reflexivity.
Qed.

Lemma makedirs_empty fs : makedirs EmptyString fs = (inl FileNotFoundError, fs).
Proof. reflexivity. Qed.

(** C10: when the file name has no directory separator, [dirname] is the
    empty string, [os.makedirs('')] raises FileNotFoundError and nothing is
    written; so a successful save implies a separator in the name.  With a
    separator the missing parent is created, as for the path the script
    uses. *)
Theorem save_report_bare_filename_fails (report filename : string) (fs : filesystem) :
  (has_sep filename = false ->
     save_report report filename fs = (inl FileNotFoundError, fs)) /\
  (fst (save_report report filename fs) = inr tt -> has_sep filename = true) /\
  save_report report "output/analysis_report.txt" ∅
  = (inr tt, <[ ["output"; "analysis_report.txt"] := File report ]>
               (<[ ["output"] := Dir ]> ∅)).
Proof.
  assert (Hfail : has_sep filename = false ->
            save_report report filename fs = (inl FileNotFoundError, fs)).
  { intros H. unfold save_report.
    rewrite (dirname_no_sep filename H), makedirs_empty. reflexivity. }
  split; [exact Hfail|]. split.
  - intros Hok. destruct (has_sep filename) eqn:E; [reflexivity|].
    rewrite (Hfail eq_refl) in Hok. discriminate.
  - vm_compute. reflexivity.
Qed.

Lemma save_report_bare_filename_fails_witness :
  save_report "text" "report.txt" ∅ = (inl FileNotFoundError, ∅).
Proof.
  apply (save_report_bare_filename_fails "text" "report.txt" ∅).
  reflexivity.
Defined.

(** ** Report Formatter *)

Lemma append_assoc (a b c : string) : (a +:+ b) +:+ c = a +:+ (b +:+ c).
Proof.
  induction a as [|x a IH]; [reflexivity|].
  change (String x ((a +:+ b) +:+ c) = String x (a +:+ (b +:+ c))).
  f_equal. exact IH.
Qed.

Lemma generate_report_template stats abnormal total hr bp gl n1 n2 n3 :
  stats !! "avg_heart_rate" = Some hr ->
  stats !! "avg_systolic_bp" = Some bp ->
  stats !! "avg_glucose" = Some gl ->
  abnormal !! "high_heart_rate" = Some n1 ->
  abnormal !! "high_blood_pressure" = Some n2 ->
  abnormal !! "high_glucose" = Some n3 ->
  generate_report stats abnormal total
  = inr (report_template (py_str_int total) (format_1f hr) (format_1f bp) (format_1f gl)
           (py_str_int n1) (py_str_int n2) (py_str_int n3)).
Proof.
  intros H1 H2 H3 H4 H5 H6.
  unfold generate_report, dict_get. rewrite H1, H2, H3, H4, H5, H6.
  f_equal. unfold report_template. cbn [app String.concat String.append].
  rewrite ?append_assoc. reflexivity.
Qed.

Lemma is_digit_pretty_N_char x : (x < 10)%N -> is_digit (pretty_N_char x) = true.
Proof.
  intros Hx.
  assert (H : (x = 0 \/ x = 1 \/ x = 2 \/ x = 3 \/ x = 4 \/ x = 5 \/ x = 6 \/ x = 7 \/
               x = 8 \/ x = 9)%N) by lia.
  repeat (destruct H as [-> | H]; [reflexivity|]). subst x. reflexivity.
Qed.

(** The decimal digits that [pretty_N_go] puts in front of its accumulator. *)
Lemma pretty_N_go_digits (x : N) : forall s,
  exists ds, pretty_N_go x s = ds +:+ s /\ all_digits ds = true /\
             ((0 < x)%N -> ds <> EmptyString).
Proof.
  induction (N.lt_wf_0 x) as [x _ IH]. intros s.
  destruct (N.eq_dec x 0%N) as [-> | Hx].
  - exists EmptyString. rewrite pretty_N_go_0.
    split; [reflexivity|]. split; [reflexivity|]. lia.
  - rewrite pretty_N_go_step by lia.
    destruct (IH (x `div` 10)%N ltac:(apply N.div_lt; lia)
                (String (pretty_N_char (x `mod` 10)) s)) as (ds & E & Hd & _).
    exists (ds +:+ String (pretty_N_char (x `mod` 10)) EmptyString).
    split; [|split].
    + rewrite E, append_assoc. reflexivity.
    + clear E. induction ds as [|c ds IHds].
      * change (is_digit (pretty_N_char (x `mod` 10)) && true = true).
        rewrite is_digit_pretty_N_char by (apply N.mod_lt; lia). reflexivity.
      * change (is_digit c && all_digits ds = true) in Hd.
        apply andb_true_iff in Hd as [Hc Hds].
        change (is_digit c &&
                all_digits (ds +:+ String (pretty_N_char (x `mod` 10)) EmptyString) = true).
        rewrite Hc. exact (IHds Hds).
    + intros _. destruct ds; discriminate.
Qed.

Lemma pretty_positive_digits (p : positive) :
  pretty (Z.pos p) <> EmptyString /\ all_digits (pretty (Z.pos p)) = true.
Proof.
  destruct (pretty_N_go_digits (N.pos p) EmptyString) as (ds & E & Hd & Hne).
  assert (Hp : pretty (Z.pos p) = ds +:+ EmptyString).
  { rewrite <- E. reflexivity. }
  assert (Happ : ds +:+ EmptyString = ds).
  { clear. induction ds as [|c ds IH]; [reflexivity|].
    change (String c (ds +:+ EmptyString) = String c ds). now rewrite IH. }
  rewrite Hp, Happ. split; [apply Hne; lia | exact Hd].
Qed.

Lemma pretty_nonneg_digits (z : Z) :
  0 <= z -> pretty z <> EmptyString /\ all_digits (pretty z) = true.
Proof.
  intros Hz. destruct z as [|p|p]; [split; [discriminate|reflexivity] | | lia].
  apply pretty_positive_digits.
Qed.

Lemma is_digit_not_minus c : is_digit c = true -> Ascii.eqb c "-" = false.
Proof.
  destruct c as [[] [] [] [] [] [] [] []]; try reflexivity; discriminate.
Qed.

Lemma strip_minus_digits s :
  s <> EmptyString -> all_digits s = true -> strip_minus s = s.
Proof.
  destruct s as [|c s]; [congruence|]. intros _ H.
  change (is_digit c && all_digits s = true) in H.
  apply andb_true_iff in H as [Hc _]. unfold strip_minus.
  now rewrite (is_digit_not_minus c Hc).
Qed.

Lemma py_str_int_plain (z : Z) : plain_int (py_str_int z) = true.
Proof.
  unfold plain_int, py_str_int. destruct z as [|p|p].
  - reflexivity.
  - destruct (pretty_positive_digits p) as [Hne Hd].
    rewrite strip_minus_digits by assumption. rewrite Hd.
    destruct (pretty (Z.pos p)); [congruence|reflexivity].
  - destruct (pretty_positive_digits p) as [Hne Hd].
    change (pretty (Z.neg p)) with (String "-" (pretty (Z.pos p))).
    cbn [strip_minus]. change (Ascii.eqb "-" "-") with true. cbn iota.
    rewrite Hd. destruct (pretty (Z.pos p)); [congruence|reflexivity].
Qed.

Lemma tenths_nonneg m e : 0 <= tenths m e.
Proof.
  unfold tenths. destruct (Z.leb_spec 0 e) as [He | He].
  - assert (0 <= 2 ^ e) by (apply Z.pow_nonneg; lia). nia.
  - unfold round_half_even.
    assert (Hd : 0 < 2 ^ (- e)) by (apply Z.pow_pos_nonneg; lia).
    assert (Hq : 0 <= 10 * Z.pos m / 2 ^ (- e)) by (apply Z.div_pos; lia).
    destruct (2 * ((10 * Z.pos m) mod 2 ^ (- e)) ?= 2 ^ (- e)); [|lia|lia].
    destruct (Z.even _); lia.
Qed.

Lemma pretty_digit (z : Z) :
  0 <= z < 10 -> exists c, pretty z = String c EmptyString /\ is_digit c = true.
Proof.
  intros Hz.
  assert (H : z = 0 \/ z = 1 \/ z = 2 \/ z = 3 \/ z = 4 \/ z = 5 \/ z = 6 \/ z = 7 \/
              z = 8 \/ z = 9) by lia.
  repeat (destruct H as [-> | H]; [eexists; split; reflexivity|]).
  subst z. eexists; split; reflexivity.
Qed.

Lemma int_point_digit_app ip d :
  ip <> EmptyString -> all_digits ip = true -> is_digit d = true ->
  int_point_digit (ip +:+ "." +:+ String d EmptyString) = true.
Proof.
  intros Hne Hip Hd. induction ip as [|c ip IH]; [congruence|].
  change (is_digit c && all_digits ip = true) in Hip.
  apply andb_true_iff in Hip as [Hc Hip].
  change (is_digit c && (point_digit (ip +:+ "." +:+ String d EmptyString)
                         || int_point_digit (ip +:+ "." +:+ String d EmptyString)) = true).
  rewrite Hc. destruct ip as [|c' ip].
  - change (Ascii.eqb "." "." && is_digit d || int_point_digit (String "." (String d EmptyString))
            = true).
    rewrite Hd. reflexivity.
  - rewrite IH by (congruence || assumption). apply orb_true_r.
Qed.

Lemma format_1f_one_decimal (x : spec_float) :
  F64.is_finite x = true -> one_decimal (format_1f x) = true.
Proof.
  destruct x as [s|s| |s m e]; try discriminate; intros _.
  - destruct s; reflexivity.
  - unfold format_1f, py_str_int.
    pose proof (tenths_nonneg m e) as Ht.
    destruct (pretty_nonneg_digits (tenths m e / 10)) as [Hne Hd].
    { apply Z.div_pos; lia. }
    destruct (pretty_digit (tenths m e mod 10)) as (d & Ed & Hdd).
    { apply Z.mod_pos_bound. lia. }
    rewrite Ed.
    pose proof (int_point_digit_app _ d Hne Hd Hdd) as Hipd.
    unfold one_decimal. destruct s.
    + change (int_point_digit (pretty (tenths m e / 10) +:+ "." +:+ String d EmptyString) = true).
      exact Hipd.
    + change (int_point_digit
                (strip_minus (pretty (tenths m e / 10) +:+ "." +:+ String d EmptyString)) = true).
      destruct (pretty (tenths m e / 10)) as [|c ip] eqn:E; [congruence|].
      change (is_digit c && all_digits ip = true) in Hd.
      apply andb_true_iff in Hd as [Hc _].
      change (String c ip +:+ "." +:+ String d EmptyString)
        with (String c (ip +:+ "." +:+ String d EmptyString)) in *.
      unfold strip_minus. rewrite (is_digit_not_minus c Hc). exact Hipd.
Qed.

Lemma report_template_trailing total hr bp gl n1 n2 n3 :
  exists body, report_template total hr bp gl n1 n2 n3
               = body +:+ " readings" +:+ newline.
Proof.
  unfold report_template. eexists. rewrite <- !append_assoc. reflexivity.
Qed.

(** C3 (as amended): for all dictionaries that hold the three means and the
    three counts, the report is the fixed template filled with the formatted
    values; the counts and the total print as plain integers, the text ends
    with the empty last line, and every finite mean prints with exactly one
    digit after the decimal point.  A NaN or infinite mean prints as nan,
    inf or -inf. *)
Theorem generate_report_matches_template
    (stats : gmap string spec_float) (abnormal : gmap string Z) (total : Z)
    (hr bp gl : spec_float) (n1 n2 n3 : Z) :
  stats !! "avg_heart_rate" = Some hr ->
  stats !! "avg_systolic_bp" = Some bp ->
  stats !! "avg_glucose" = Some gl ->
  abnormal !! "high_heart_rate" = Some n1 ->
  abnormal !! "high_blood_pressure" = Some n2 ->
  abnormal !! "high_glucose" = Some n3 ->
  generate_report stats abnormal total
    = inr (report_template (py_str_int total) (format_1f hr) (format_1f bp) (format_1f gl)
             (py_str_int n1) (py_str_int n2) (py_str_int n3)) /\
  (exists body, generate_report stats abnormal total
                = inr (body +:+ " readings" +:+ newline)) /\
  plain_int (py_str_int total) = true /\
  plain_int (py_str_int n1) = true /\
  plain_int (py_str_int n2) = true /\
  plain_int (py_str_int n3) = true /\
  (forall x, In x [hr; bp; gl] ->
     match x with
     | S754_nan => format_1f x = "nan"
     | S754_infinity s => format_1f x = (if s then "-inf" else "inf")
     | _ => one_decimal (format_1f x) = true
     end).
Proof.
  intros H1 H2 H3 H4 H5 H6.
  pose proof (generate_report_template _ _ total _ _ _ _ _ _ H1 H2 H3 H4 H5 H6) as E.
  split; [exact E|]. split.
  { destruct (report_template_trailing (py_str_int total) (format_1f hr) (format_1f bp)
                (format_1f gl) (py_str_int n1) (py_str_int n2) (py_str_int n3)) as [b Hb].
    exists b. rewrite E, Hb. reflexivity. }
  repeat (split; [apply py_str_int_plain|]).
  intros x _. destruct x as [s|s| |s m e].
  - now apply format_1f_one_decimal.
  - destruct s; reflexivity.
  - reflexivity.
  - now apply format_1f_one_decimal.
Qed.

Lemma generate_report_matches_template_witness :
  generate_report (stats_of three_rows) (abnormal_of three_rows) 3 = inr three_rows_report.
Proof.
  destruct (generate_report_matches_template (stats_of three_rows) (abnormal_of three_rows) 3
              (np_mean [80; 95; 100]) (np_mean [120; 135; 128]) (np_mean [100; 115; 90])
              2 1 1) as (E & _); [reflexivity .. |].
  rewrite E. vm_compute. reflexivity.
Defined.

(** C3, as stated, fails on NaN means (the statistics of an empty table):
    the three averages print as "nan", which has no digit after a decimal
    point. *)
Lemma generate_report_nan_counterexample :
  nan_stats !! "avg_heart_rate" = Some S754_nan /\
  generate_report nan_stats no_abnormal 0
    = inr (report_template "0" "nan" "nan" "nan" "0" "0" "0") /\
  one_decimal "nan" = false.
Proof. repeat split; vm_compute; reflexivity. Qed.

(** ** Facts on the binary64 operations *)

Lemma digits2_pos_log2 p : Z.pos (digits2_pos p) = Z.log2 (Z.pos p) + 1.
Proof.
  induction p as [p IH|p IH|]; cbn [digits2_pos]; rewrite ?Pos2Z.inj_succ, ?IH.
  - rewrite Pos2Z.inj_xI, Z.log2_succ_double by lia. lia.
  - rewrite Pos2Z.inj_xO, Z.log2_double by lia. lia.
  - reflexivity.
Qed.

Lemma digits2_pos_bounds p :
  2 ^ (Z.pos (digits2_pos p) - 1) <= Z.pos p < 2 ^ Z.pos (digits2_pos p).
Proof.
  rewrite digits2_pos_log2.
  replace (Z.log2 (Z.pos p) + 1 - 1) with (Z.log2 (Z.pos p)) by lia.
  replace (Z.log2 (Z.pos p) + 1) with (Z.succ (Z.log2 (Z.pos p))) by lia.
  apply Z.log2_spec. lia.
Qed.

Lemma Zdigits2_mul_pow2 z k :
  0 < z -> 0 <= k -> Zdigits2 (z * 2 ^ k) = Zdigits2 z + k.
Proof.
  intros Hz Hk.
  assert (Hp : 0 < z * 2 ^ k) by (apply Z.mul_pos_pos; [lia | apply Z.pow_pos_nonneg; lia]).
  destruct z as [|p|p]; try lia.
  destruct (Z.pos p * 2 ^ k) as [|q|q] eqn:E; try lia.
  cbn [Zdigits2]. rewrite !digits2_pos_log2, <- E.
  rewrite Z.log2_mul_pow2 by lia. lia.
Qed.

Lemma pos_iter_xO m d : Z.pos (Pos.iter xO m d) = Z.pos m * 2 ^ Z.pos d.
Proof.
  revert m. induction d as [|d IH] using Pos.peano_ind; intros m.
  - cbn [Pos.iter]. rewrite Pos2Z.inj_xO. lia.
  - rewrite Pos.iter_succ, Pos2Z.inj_xO, IH, Pos2Z.inj_succ, Z.pow_succ_r by lia. lia.
Qed.

Lemma shl_align_value mx ex ex' :
  ex' <= ex ->
  Z.pos (fst (shl_align mx ex ex')) = Z.pos mx * 2 ^ (ex - ex') /\
  snd (shl_align mx ex ex') = ex'.
Proof.
  intros Hle. unfold shl_align.
  destruct (ex' - ex) as [|d|d] eqn:E; try lia; cbn [fst snd].
  - replace (ex - ex') with 0 by lia. split; lia.
  - rewrite pos_iter_xO. replace (ex - ex') with (Z.pos d) by lia. split; lia.
Qed.

Lemma shl_align_id mx ex ex' : ex <= ex' -> shl_align mx ex ex' = (mx, ex).
Proof.
  intros Hle. unfold shl_align. destruct (ex' - ex) as [|d|d] eqn:E; try lia; reflexivity.
Qed.

Lemma shr_1_exact m : 0 <= m -> shr_1 (exact_rec (2 * m)) = exact_rec m.
Proof.
  intros Hm. destruct m as [|p|p]; try lia; reflexivity.
Qed.

Lemma iter_pos_shr_exact n : forall m k,
  0 <= m -> Z.pos n <= k ->
  SpecFloat.iter_pos shr_1 n (exact_rec (m * 2 ^ k)) = exact_rec (m * 2 ^ (k - Z.pos n)).
Proof.
  assert (Hstep : forall m k, 0 <= m -> 1 <= k ->
            shr_1 (exact_rec (m * 2 ^ k)) = exact_rec (m * 2 ^ (k - 1))).
  { intros m k Hm Hk. replace (m * 2 ^ k) with (2 * (m * 2 ^ (k - 1))).
    - apply shr_1_exact. assert (0 <= 2 ^ (k - 1)) by (apply Z.pow_nonneg; lia). nia.
    - replace k with (Z.succ (k - 1)) at 2 by lia. rewrite Z.pow_succ_r by lia. lia. }
  induction n as [n IH|n IH|]; intros m k Hm Hk; cbn [SpecFloat.iter_pos].
  - rewrite Hstep by lia. rewrite IH by lia. rewrite IH by lia.
    f_equal. f_equal. f_equal. lia.
  - rewrite IH by lia. rewrite IH by lia. f_equal. f_equal. f_equal. lia.
  - apply Hstep; lia.
Qed.

Lemma shr_exact m k e n :
  0 <= m -> 0 <= n <= k ->
  shr (exact_rec (m * 2 ^ k)) e n = (exact_rec (m * 2 ^ (k - n)), e + n).
Proof.
  intros Hm Hn. unfold shr. destruct n as [|p|p]; try lia.
  - rewrite Z.sub_0_r, Z.add_0_r. reflexivity.
  - rewrite iter_pos_shr_exact by lia. reflexivity.
Qed.

Lemma fexp_small d : - 1021 <= d -> fexp 53 1024 d = d - 53.
Proof. intros H. unfold fexp, emin. lia. Qed.

(** Rounding a mantissa whose dropped bits are all zero is exact. *)
Lemma binary_round_aux_exact s m n e :
  0 < m -> 0 <= n ->
  fexp 53 1024 (Zdigits2 (m * 2 ^ n) + e) = e + n -> e + n <= 971 ->
  binary_round_aux 53 1024 s (m * 2 ^ n) e loc_Exact = S754_finite s (Z.to_pos m) (e + n).
Proof.
  intros Hm Hn Hf He.
  unfold binary_round_aux, shr_fexp.
  change (shr_record_of_loc (m * 2 ^ n) loc_Exact) with (exact_rec (m * 2 ^ n)).
  rewrite Hf. replace (e + n - e) with n by lia.
  rewrite shr_exact by lia. rewrite Z.sub_diag, Z.pow_0_r, Z.mul_1_r.
  change (loc_of_shr_record (exact_rec m)) with loc_Exact.
  change (shr_m (exact_rec m)) with m.
  change (round_nearest_even m loc_Exact) with m.
  change (shr_record_of_loc m loc_Exact) with (exact_rec m).
  rewrite Zdigits2_mul_pow2 in Hf by lia.
  replace (Zdigits2 m + (e + n)) with (Zdigits2 m + n + e) by lia.
  rewrite Hf, Z.sub_diag. cbn [shr shr_m exact_rec].
  destruct m as [|p|p]; try lia.
  replace (e + n <=? 1024 - 53) with true by (symmetry; apply Z.leb_le; lia).
  reflexivity.
Qed.

Lemma Zdigits2_pos z : 0 < z -> 1 <= Zdigits2 z.
Proof. destruct z as [|p|p]; try lia. intros _. cbn. lia. Qed.

Lemma Zdigits2_le_53 z : 0 < z < 2 ^ 53 -> Zdigits2 z <= 53.
Proof.
  intros [Hz Hlt]. destruct z as [|p|p]; try lia. cbn [Zdigits2].
  rewrite digits2_pos_log2.
  assert (Z.log2 (Z.pos p) < 53) by (apply Z.log2_lt_pow2; lia). lia.
Qed.

Lemma binary_round_canon s mx ex z K :
  0 < z < 2 ^ 53 -> 0 <= K -> Z.pos mx = z * 2 ^ K -> ex = - K ->
  binary_round 53 1024 s mx ex = canon s z.
Proof.
  intros Hz HK Hmx ->.
  pose proof (Zdigits2_pos z (proj1 Hz)) as Hd1.
  pose proof (Zdigits2_le_53 z Hz) as Hd2.
  assert (Hdig : Z.pos (digits2_pos mx) = Zdigits2 z + K).
  { change (Z.pos (digits2_pos mx)) with (Zdigits2 (Z.pos mx)).
    rewrite Hmx. apply Zdigits2_mul_pow2; lia. }
  unfold binary_round, canon. rewrite Hdig.
  replace (Zdigits2 z + K + - K) with (Zdigits2 z) by lia.
  rewrite fexp_small by lia.
  set (d := Zdigits2 z) in *.
  assert (Hpow : 0 < 2 ^ (53 - d)) by (apply Z.pow_pos_nonneg; lia).
  destruct (Z_le_gt_dec (d - 53) (- K)) as [Hle | Hgt].
  - destruct (shl_align_value mx (- K) (d - 53) Hle) as [Hv He].
    destruct (shl_align mx (- K) (d - 53)) as [mz ez]. cbn [fst snd] in Hv, He. subst ez.
    assert (Emz : Z.pos mz = z * 2 ^ (53 - d)).
    { rewrite Hv, Hmx, <- Z.mul_assoc, <- Z.pow_add_r by lia. f_equal. f_equal. lia. }
    pose proof (binary_round_aux_exact s (Z.pos mz) 0 (d - 53)) as B.
    rewrite Z.pow_0_r, Z.mul_1_r, Z.add_0_r in B.
    rewrite B; try lia.
    + rewrite Emz. reflexivity.
    + rewrite Emz, Zdigits2_mul_pow2 by lia. fold d. rewrite fexp_small by lia. lia.
  - rewrite shl_align_id by lia.
    pose proof (binary_round_aux_exact s (z * 2 ^ (53 - d)) (K + d - 53) (- K)) as B.
    assert (Emx : Z.pos mx = z * 2 ^ (53 - d) * 2 ^ (K + d - 53)).
    { rewrite Hmx, <- Z.mul_assoc, <- Z.pow_add_r by lia. f_equal. f_equal. lia. }
    rewrite <- Emx in B. rewrite B; try lia.
    + f_equal. lia.
    + rewrite Hmx, Zdigits2_mul_pow2 by lia. fold d. rewrite fexp_small by lia. lia.
Qed.

Lemma of_Z_canon z : - 2 ^ 53 < z < 2 ^ 53 -> F64.of_Z z = canon_Z z.
Proof.
  intros Hz. unfold F64.of_Z, binary_normalize, canon_Z, F64.prec, F64.emax.
  destruct z as [|p|p]; [reflexivity| |].
  - apply (binary_round_canon false p 0 (Z.pos p) 0); lia.
  - apply (binary_round_canon true p 0 (Z.pos p) 0); lia.
Qed.

Lemma canon_mantissa z :
  0 < z < 2 ^ 53 ->
  Z.pos (Z.to_pos (z * 2 ^ (53 - Zdigits2 z))) = z * 2 ^ (53 - Zdigits2 z).
Proof.
  intros Hz. pose proof (Zdigits2_le_53 z Hz).
  assert (0 < 2 ^ (53 - Zdigits2 z)) by (apply Z.pow_pos_nonneg; lia).
  rewrite Z2Pos.id by nia. reflexivity.
Qed.

(** The aligned mantissa of a canonical number in an addition. *)
Lemma canon_aligned s z ez :
  0 < z < 2 ^ 53 -> ez <= Zdigits2 z - 53 ->
  cond_Zopp s
    (Z.pos (fst (shl_align (Z.to_pos (z * 2 ^ (53 - Zdigits2 z))) (Zdigits2 z - 53) ez)))
  = cond_Zopp s z * 2 ^ (- ez).
Proof.
  intros Hz Hez. pose proof (Zdigits2_le_53 z Hz).
  destruct (shl_align_value (Z.to_pos (z * 2 ^ (53 - Zdigits2 z))) (Zdigits2 z - 53) ez Hez)
    as [Hv _].
  rewrite Hv, canon_mantissa, <- Z.mul_assoc, <- Z.pow_add_r by lia.
  replace (53 - Zdigits2 z + (Zdigits2 z - 53 - ez)) with (- ez) by lia.
  destruct s; cbn [cond_Zopp]; lia.
Qed.

Lemma canon_Z_cases z :
  z <> 0 -> canon_Z z = canon (z <? 0) (Z.abs z) /\ cond_Zopp (z <? 0) (Z.abs z) = z.
Proof. destruct z as [|p|p]; [congruence| |]; intros _; split; reflexivity. Qed.

Lemma binary_normalize_canon m K z :
  - 2 ^ 53 < z < 2 ^ 53 -> 0 <= K -> m = z * 2 ^ K ->
  binary_normalize 53 1024 m (- K) false = canon_Z z.
Proof.
  intros Hz HK ->.
  assert (Hp : 0 < 2 ^ K) by (apply Z.pow_pos_nonneg; lia).
  unfold binary_normalize.
  destruct (z * 2 ^ K) as [|q|q] eqn:E.
  - assert (z = 0) by nia. subst z. reflexivity.
  - assert (Hpos : 0 < z) by nia.
    destruct z as [|p|p]; try lia. cbn [canon_Z].
    apply (binary_round_canon false q (- K) (Z.pos p) K); lia.
  - assert (Hneg : z < 0) by nia.
    destruct z as [|p|p]; try lia. cbn [canon_Z].
    apply (binary_round_canon true q (- K) (Z.pos p) K); lia.
Qed.

(** Addition of two integers is exact as long as the operands and the sum
    are below 2^53 in magnitude. *)
Lemma add_of_Z a b :
  - 2 ^ 53 < a < 2 ^ 53 -> - 2 ^ 53 < b < 2 ^ 53 -> - 2 ^ 53 < a + b < 2 ^ 53 ->
  F64.add (F64.of_Z a) (F64.of_Z b) = F64.of_Z (a + b).
Proof.
  intros Ha Hb Hab. rewrite !of_Z_canon by assumption.
  destruct (Z.eq_dec a 0) as [-> | Ha0].
  { rewrite Z.add_0_l. destruct b; reflexivity. }
  destruct (Z.eq_dec b 0) as [-> | Hb0].
  { rewrite Z.add_0_r. destruct a; reflexivity. }
  destruct (canon_Z_cases a Ha0) as [Ea Sa], (canon_Z_cases b Hb0) as [Eb Sb].
  rewrite Ea, Eb. unfold canon at 1 2. unfold F64.add, F64.prec, F64.emax, SFadd.
  set (ea := Zdigits2 (Z.abs a) - 53). set (eb := Zdigits2 (Z.abs b) - 53).
  assert (Hea : ea <= 0) by (unfold ea; pose proof (Zdigits2_le_53 (Z.abs a)); lia).
  assert (Heb : eb <= 0) by (unfold eb; pose proof (Zdigits2_le_53 (Z.abs b)); lia).
  unfold ea, eb.
  rewrite !canon_aligned by (fold ea eb; lia).
  fold ea eb. rewrite Sa, Sb, <- Z.mul_add_distr_r.
  rewrite <- (Z.opp_involutive (Z.min ea eb)) at 2.
  apply binary_normalize_canon; [lia | lia | reflexivity].
Qed.

(** *** Division *)

Lemma Zdigits2_unique z d : 0 < d -> 2 ^ (d - 1) <= z < 2 ^ d -> Zdigits2 z = d.
Proof.
  intros Hd [Hlo Hhi].
  assert (Hz : 0 < z) by (pose proof (Z.pow_pos_nonneg 2 (d - 1)); lia).
  destruct z as [|p|p]; try lia. cbn [Zdigits2]. rewrite digits2_pos_log2.
  rewrite (Z.log2_unique (Z.pos p) (d - 1)); [lia | lia |].
  replace (Z.succ (d - 1)) with d by lia. lia.
Qed.

Lemma shr_1_spec m r s :
  0 <= m ->
  exists m' b, shr_1 {| shr_m := m; shr_r := r; shr_s := s |}
               = {| shr_m := m'; shr_r := b; shr_s := r || s |} /\
               m = 2 * m' + Z.b2z b.
Proof.
  intros Hm. destruct m as [|[p|p|]|p]; try lia.
  - exists 0, false. split; reflexivity.
  - exists (Z.pos p), true. split; [reflexivity | cbn [Z.b2z]; lia].
  - exists (Z.pos p), false. split; [reflexivity | cbn [Z.b2z]; lia].
  - exists 0, true. split; reflexivity.
Qed.

Lemma loc_of_shr_record_of_loc m l : loc_of_shr_record (shr_record_of_loc m l) = l.
Proof. destruct l as [|[| |]]; reflexivity. Qed.

Lemma shr_m_record_of_loc m l : shr_m (shr_record_of_loc m l) = m.
Proof. destruct l as [|[| |]]; reflexivity. Qed.

Lemma round_nearest_even_cases m l :
  round_nearest_even m l = m \/ (round_nearest_even m l = m + 1 /\ l <> loc_Exact).
Proof.
  destruct l as [|[| |]]; cbn [round_nearest_even]; try (left; reflexivity).
  - destruct (Z.even m); [left; reflexivity | right; split; [reflexivity | discriminate]].
  - right. split; [reflexivity | discriminate].
Qed.

Lemma new_location_exact d r : new_location d r = loc_Exact -> r = 0.
Proof.
  unfold new_location, new_location_even, new_location_odd.
  destruct (Z.even d), (Z.eqb_spec r 0); try discriminate; auto.
Qed.

(** Rounding a quotient of 53 or 54 bits: the mantissa [mr] that comes out is
    the quotient shifted by [n1] bits or its successor, the successor only
    when something was dropped. *)
Lemma binary_round_aux_cases s q e l :
  2 ^ 52 <= q < 2 ^ 54 -> - 1000 <= e <= 900 ->
  exists m e' n1 mr,
    binary_round_aux 53 1024 s q e l = S754_finite s m e' /\
    0 <= n1 <= 1 /\
    (mr = q / 2 ^ n1 \/ (mr = q / 2 ^ n1 + 1 /\ (l <> loc_Exact \/ q mod 2 ^ n1 <> 0))) /\
    Z.pos m * 2 ^ (e' - (e + n1)) = mr /\ e + n1 <= e' <= e + n1 + 1.
Proof.
  intros Hq He.
  (* the mantissa after the first shift, with its location *)
  assert (Hfirst : exists n1 m1 l1,
            shr_fexp 53 1024 q e l = ({| shr_m := m1; shr_r := fst l1; shr_s := snd l1 |}, e + n1) /\
            0 <= n1 <= 1 /\ m1 = q / 2 ^ n1 /\ 2 ^ 52 <= m1 < 2 ^ 53 /\
            (loc_of_shr_record {| shr_m := m1; shr_r := fst l1; shr_s := snd l1 |} <> loc_Exact ->
             l <> loc_Exact \/ q mod 2 ^ n1 <> 0)).
  { unfold shr_fexp. destruct (Z_lt_ge_dec q (2 ^ 53)) as [Hlt | Hge].
    - rewrite (Zdigits2_unique q 53) by lia. rewrite fexp_small by lia.
      replace (53 + e - 53 - e) with 0 by lia. cbn [shr].
      exists 0, q, (shr_r (shr_record_of_loc q l), shr_s (shr_record_of_loc q l)).
      cbn [fst snd]. split; [|split; [lia|split; [|split; [lia|]]]].
      + rewrite Z.add_0_r. f_equal. destruct l as [|[| |]]; reflexivity.
      + rewrite Z.pow_0_r, Z.div_1_r. reflexivity.
      + intros Hl. left. intros ->. apply Hl. reflexivity.
    - rewrite (Zdigits2_unique q 54) by lia. rewrite fexp_small by lia.
      replace (54 + e - 53 - e) with 1 by lia. cbn [shr SpecFloat.iter_pos].
      destruct (shr_1_spec q (shr_r (shr_record_of_loc q l)) (shr_s (shr_record_of_loc q l)))
        as (m' & b & E & Hm'); [lia|].
      exists 1, m', (b, shr_r (shr_record_of_loc q l) || shr_s (shr_record_of_loc q l)).
      cbn [fst snd]. split; [|split; [lia|split; [|split]]].
      + rewrite <- E. f_equal. f_equal. destruct l as [|[| |]]; reflexivity.
      + change (2 ^ 1) with 2. clear E.
        destruct b; cbn [Z.b2z] in Hm'; Z.div_mod_to_equations; lia.
      + destruct b; cbn [Z.b2z] in Hm'; lia.
      + change (2 ^ 1) with 2. intros Hl.
        destruct l as [|[| |]]; try (left; discriminate).
        right. destruct b; [cbn [Z.b2z] in Hm'; clear E; Z.div_mod_to_equations; lia|].
        exfalso. apply Hl. reflexivity. }
  destruct Hfirst as (n1 & m1 & [r1 s1] & E1 & Hn1 & Hm1 & Hr1 & Hl1). cbn [fst snd] in *.
  unfold binary_round_aux. rewrite E1. cbn [shr_m].
  set (l1 := loc_of_shr_record {| shr_m := m1; shr_r := r1; shr_s := s1 |}) in *.
  set (mr := round_nearest_even m1 l1).
  assert (Hmr : mr = m1 \/ (mr = m1 + 1 /\ l1 <> loc_Exact))
    by apply round_nearest_even_cases.
  assert (Hmr_q : mr = q / 2 ^ n1 \/
                  (mr = q / 2 ^ n1 + 1 /\ (l <> loc_Exact \/ q mod 2 ^ n1 <> 0))).
  { destruct Hmr as [-> | [-> Hne]]; [left; exact Hm1 | right].
    split; [now rewrite Hm1 | now apply Hl1]. }
  clearbody mr. unfold shr_fexp.
  change (shr_record_of_loc mr loc_Exact) with (exact_rec mr).
  destruct (Z_lt_ge_dec mr (2 ^ 53)) as [Hlt | Hge].
  - rewrite (Zdigits2_unique mr 53) by lia. rewrite fexp_small by lia.
    replace (53 + (e + n1) - 53 - (e + n1)) with 0 by lia. cbn [shr shr_m exact_rec].
    destruct mr as [|p|p]; try lia.
    replace (e + n1 <=? 1024 - 53) with true by (symmetry; apply Z.leb_le; lia).
    exists p, (e + n1), n1, (Z.pos p).
    split; [reflexivity|]. split; [lia|]. split; [exact Hmr_q|].
    split; [|lia]. rewrite Z.sub_diag. lia.
  - assert (Emr : mr = 2 ^ 53) by lia. subst mr.
    rewrite (Zdigits2_unique (2 ^ 53) 54) by lia. rewrite fexp_small by lia.
    replace (54 + (e + n1) - 53 - (e + n1)) with 1 by lia.
    cbn [shr SpecFloat.iter_pos].
    change (shr_1 (exact_rec (2 ^ 53))) with (exact_rec (2 ^ 52)).
    cbn [shr_m exact_rec]. change (2 ^ 52) with (Z.pos (Z.to_pos (2 ^ 52))) at 1. cbv iota.
    replace (e + n1 + 1 <=? 1024 - 53) with true by (symmetry; apply Z.leb_le; lia).
    exists (Z.to_pos (2 ^ 52)), (e + n1 + 1), n1, (2 ^ 53).
    split; [reflexivity|]. split; [lia|]. split; [exact Hmr_q|].
    split; [|lia]. replace (e + n1 + 1 - (e + n1)) with 1 by lia. reflexivity.
Qed.

Lemma Zdigits2_bounds z : 0 < z -> 2 ^ (Zdigits2 z - 1) <= z < 2 ^ Zdigits2 z.
Proof.
  intros Hz. destruct z as [|p|p]; try lia. apply digits2_pos_bounds.
Qed.

Lemma canon_mantissa_bounds z :
  0 < z < 2 ^ 53 -> 2 ^ 52 <= z * 2 ^ (53 - Zdigits2 z) < 2 ^ 53.
Proof.
  intros Hz. pose proof (Zdigits2_pos z (proj1 Hz)) as H1.
  pose proof (Zdigits2_le_53 z Hz) as H2.
  pose proof (Zdigits2_bounds z (proj1 Hz)) as [Hlo Hhi].
  set (d := Zdigits2 z) in *.
  assert (Hp : 0 < 2 ^ (53 - d)) by (apply Z.pow_pos_nonneg; lia).
  assert (E1 : 2 ^ (d - 1) * 2 ^ (53 - d) = 2 ^ 52).
  { rewrite <- Z.pow_add_r by lia. f_equal. lia. }
  assert (E2 : 2 ^ d * 2 ^ (53 - d) = 2 ^ 53).
  { rewrite <- Z.pow_add_r by lia. f_equal. lia. }
  split; nia.
Qed.

Lemma SFdiv_core_canon m1 e1 m2 e2 :
  2 ^ 52 <= m1 < 2 ^ 53 -> 2 ^ 52 <= m2 < 2 ^ 53 -> - 52 <= e1 <= 0 -> - 52 <= e2 <= 0 ->
  SFdiv_core_binary 53 1024 m1 e1 m2 e2
  = (m1 * 2 ^ 53 / m2, e1 - e2 - 53, new_location m2 ((m1 * 2 ^ 53) mod m2)).
Proof.
  intros H1 H2 He1 He2. unfold SFdiv_core_binary.
  rewrite (Zdigits2_unique m1 53), (Zdigits2_unique m2 53) by lia.
  rewrite fexp_small by lia.
  replace (Z.min (53 + e1 - (53 + e2) - 53) (e1 - e2)) with (e1 - e2 - 53) by lia.
  replace (e1 - e2 - (e1 - e2 - 53)) with 53 by lia.
  rewrite Z.shiftl_mul_pow2 by lia.
  unfold Z.div, Z.modulo. destruct (Z.div_eucl (m1 * 2 ^ 53) m2). reflexivity.
Qed.

(** Comparing [m * 2^e] with an integer, on either scale. *)
Lemma scaled_le_iff k m e E :
  0 <= E -> 0 <= e + E ->
  (k * 2 ^ E <= m * 2 ^ (e + E) <-> k * 2 ^ Z.max 0 (- e) <= m * 2 ^ Z.max 0 e) /\
  (m * 2 ^ (e + E) <= k * 2 ^ E <-> m * 2 ^ Z.max 0 e <= k * 2 ^ Z.max 0 (- e)).
Proof.
  intros HE HeE. destruct (Z_le_gt_dec 0 e) as [He | He].
  - rewrite (Z.max_r 0 e), (Z.max_l 0 (- e)), Z.pow_0_r, Z.mul_1_r by lia.
    rewrite Z.pow_add_r by lia.
    assert (Ha : 0 < 2 ^ E) by (apply Z.pow_pos_nonneg; lia).
    generalize dependent (2 ^ E). generalize (2 ^ e). intros a b Hb.
    split; split; intros; nia.
  - rewrite (Z.max_l 0 e), (Z.max_r 0 (- e)), Z.pow_0_r, Z.mul_1_r by lia.
    assert (HEq : 2 ^ E = 2 ^ (- e) * 2 ^ (e + E)).
    { rewrite <- Z.pow_add_r by lia. f_equal. lia. }
    rewrite HEq. clear HEq.
    assert (Hb : 0 < 2 ^ (e + E)) by (apply Z.pow_pos_nonneg; lia).
    generalize dependent (2 ^ (e + E)). generalize (2 ^ (- e)). intros a b Hb.
    split; split; intros; nia.
Qed.

(** The quotient of two positive integers below 2^53 is a finite number that
    no integer separates from the exact quotient: it is at least every
    integer [k] with [k * n <= z] and at most every integer with
    [z <= k * n]. *)
Lemma div_canon_bounds s z n :
  0 < z < 2 ^ 53 -> 0 < n < 2 ^ 53 ->
  exists m e,
    SFdiv 53 1024 (canon s z) (canon false n) = S754_finite s m e /\
    forall k,
      (k * n <= z -> k * 2 ^ Z.max 0 (- e) <= Z.pos m * 2 ^ Z.max 0 e) /\
      (z <= k * n -> Z.pos m * 2 ^ Z.max 0 e <= k * 2 ^ Z.max 0 (- e)).
Proof.
  intros Hz Hn.
  pose proof (canon_mantissa z Hz) as Ez. pose proof (canon_mantissa n Hn) as En.
  pose proof (canon_mantissa_bounds z Hz) as Bz.
  pose proof (canon_mantissa_bounds n Hn) as Bn.
  pose proof (Zdigits2_pos z (proj1 Hz)) as Dz1. pose proof (Zdigits2_le_53 z Hz) as Dz2.
  pose proof (Zdigits2_pos n (proj1 Hn)) as Dn1. pose proof (Zdigits2_le_53 n Hn) as Dn2.
  unfold canon, SFdiv. rewrite Ez, En.
  set (dz := Zdigits2 z) in *. set (dn := Zdigits2 n) in *.
  set (mz := z * 2 ^ (53 - dz)) in *. set (mn := n * 2 ^ (53 - dn)) in *.
  rewrite SFdiv_core_canon by lia. rewrite xorb_false_r.
  set (q := mz * 2 ^ 53 / mn). set (r := (mz * 2 ^ 53) mod mn).
  set (e0 := dz - 53 - (dn - 53) - 53).
  assert (Hq : 2 ^ 52 <= q < 2 ^ 54).
  { unfold q. split.
    - apply Z.div_le_lower_bound; lia.
    - apply Z.div_lt_upper_bound; lia. }
  destruct (binary_round_aux_cases s q e0 (new_location mn r) Hq)
    as (m & e & n1 & mr & Eround & Hn1 & Hmr & Hm & He); [unfold e0; lia|].
  exists m, e. split; [exact Eround|].
  (* the scale on which the rounded mantissa is an integer *)
  set (E := - (e0 + n1)).
  assert (HE : 0 <= E) by (unfold E, e0; lia).
  set (c := 53 - dn + n1).
  assert (Hc : 0 <= c) by (unfold c; lia).
  assert (Hnum : mz * 2 ^ 53 = z * 2 ^ E * 2 ^ c).
  { unfold mz. rewrite <- !Z.mul_assoc, <- !Z.pow_add_r by lia.
    f_equal. f_equal. unfold E, e0, c. lia. }
  assert (Hden : mn * 2 ^ n1 = n * 2 ^ c).
  { unfold mn. rewrite <- !Z.mul_assoc, <- !Z.pow_add_r by lia. reflexivity. }
  assert (Hpc : 0 < 2 ^ c) by (apply Z.pow_pos_nonneg; lia).
  assert (Hpn1 : 0 < 2 ^ n1) by (apply Z.pow_pos_nonneg; lia).
  assert (HpE : 0 < 2 ^ E) by (apply Z.pow_pos_nonneg; lia).
  assert (Hfloor : q / 2 ^ n1 = z * 2 ^ E / n).
  { unfold q. rewrite Z.div_div by lia. rewrite Hnum, Hden.
    apply Z.div_mul_cancel_r; lia. }
  assert (Hexact : (z * 2 ^ E) mod n = 0 ->
                   new_location mn r = loc_Exact /\ q mod 2 ^ n1 = 0).
  { intros Hmod. apply Z.mod_divide in Hmod; [|lia]. destruct Hmod as [t Ht].
    assert (Hnum' : mz * 2 ^ 53 = (t * 2 ^ n1) * mn).
    { rewrite Hnum, Ht. rewrite <- (Z.mul_assoc t n), <- Hden. ring. }
    assert (Hr0 : r = 0).
    { unfold r. rewrite Hnum'. apply Z.mod_mul. lia. }
    assert (Hq' : q = t * 2 ^ n1).
    { unfold q. rewrite Hnum'. apply Z.div_mul. lia. }
    split.
    - rewrite Hr0. unfold new_location, new_location_even, new_location_odd.
      destruct (Z.even mn); reflexivity.
    - rewrite Hq'. apply Z.mod_mul. lia. }
  assert (Hmr' : z * 2 ^ E / n <= mr /\
                 (mr = z * 2 ^ E / n \/ (mr = z * 2 ^ E / n + 1 /\ (z * 2 ^ E) mod n <> 0))).
  { rewrite <- Hfloor. destruct Hmr as [-> | [-> Hinex]].
    - split; [lia | left; reflexivity].
    - split; [lia | right]. split; [reflexivity|].
      intros Hmod. destruct (Hexact Hmod) as [Hl Hq0]. destruct Hinex; congruence. }
  clear Hmr. destruct Hmr' as [Hlow Hup].
  intros k.
  destruct (scaled_le_iff k (Z.pos m) e E HE ltac:(unfold E; lia)) as [Hle Hge].
  replace (e - (e0 + n1)) with (e + E) in Hm by (unfold E; lia).
  rewrite Hm in Hle, Hge.
  split; intros Hk.
  - apply Hle. etransitivity; [|exact Hlow].
    apply Z.div_le_lower_bound; nia.
  - apply Hge.
    assert (Hdiv : z * 2 ^ E / n <= k * 2 ^ E) by (apply Z.div_le_upper_bound; nia).
    destruct Hup as [-> | [-> Hinex]]; [exact Hdiv|].
    destruct (Z.eq_dec (z * 2 ^ E / n) (k * 2 ^ E)) as [Heq | Hneq]; [|lia].
    exfalso. apply Hinex.
    pose proof (Z.div_mod (z * 2 ^ E) n ltac:(lia)) as Hdm.
    pose proof (Z.mod_pos_bound (z * 2 ^ E) n ltac:(lia)) as Hmb.
    rewrite Heq in Hdm. nia.
Qed.

Lemma sum_Z_bound xs :
  Forall int32_range xs -> Z.abs (sum_Z xs) <= Z.of_nat (length xs) * 2 ^ 31.
Proof.
  induction 1 as [|x xs Hx _ IH]; cbn [sum_Z fold_right length].
  - lia.
  - fold (sum_Z xs). unfold int32_range in Hx. lia.
Qed.

Lemma np_sum_f64_acc xs : forall a,
  Forall int32_range xs ->
  Z.abs a + Z.of_nat (length xs) * 2 ^ 31 < 2 ^ 53 ->
  fold_left (fun acc x => F64.add acc (F64.of_Z x)) xs (F64.of_Z a)
  = F64.of_Z (a + sum_Z xs).
Proof.
  induction xs as [|x xs IH]; intros a Hall Hb; cbn [fold_left sum_Z fold_right].
  - now rewrite Z.add_0_r.
  - fold (sum_Z xs). inversion Hall as [|? ? Hx Hxs]; subst.
    unfold int32_range in Hx. cbn [length] in Hb.
    rewrite add_of_Z by lia. rewrite IH by (assumption || lia).
    f_equal. lia.
Qed.

(** The float64 accumulation of an int32 column of fewer than 2^22 elements
    is exact. *)
Lemma np_sum_f64_exact xs :
  Forall int32_range xs -> Z.of_nat (length xs) < 2 ^ 22 ->
  np_sum_f64 xs = F64.of_Z (sum_Z xs).
Proof.
  intros Hall Hlen. unfold np_sum_f64.
  change (S754_zero false) with (F64.of_Z 0).
  rewrite np_sum_f64_acc by (assumption || lia). reflexivity.
Qed.

Lemma sum_Z_app l1 l2 : sum_Z (l1 ++ l2) = sum_Z l1 + sum_Z l2.
Proof.
  unfold sum_Z. induction l1 as [|x l1 IH]; cbn [app fold_right]; [reflexivity|].
  rewrite IH. lia.
Qed.

Lemma sum_Z_perm l l' : Permutation l l' -> sum_Z l = sum_Z l'.
Proof.
  unfold sum_Z. induction 1; cbn [fold_right]; lia.
Qed.

(** ... and so is any other order of the additions. *)
Lemma f64_sum_exact xs a :
  f64_sum xs a -> Forall int32_range xs -> Z.of_nat (length xs) < 2 ^ 22 ->
  a = F64.of_Z (sum_Z xs).
Proof.
  induction 1 as [|x|l1 l2 a b H1 IH1 H2 IH2|l l' a Hp H IH]; intros Hall Hlen.
  - reflexivity.
  - cbn. f_equal. lia.
  - apply Forall_app in Hall as [Hall1 Hall2].
    rewrite length_app, Nat2Z.inj_add in Hlen.
    rewrite IH1, IH2 by (assumption || lia).
    pose proof (sum_Z_bound l1 Hall1). pose proof (sum_Z_bound l2 Hall2).
    rewrite sum_Z_app. apply add_of_Z; lia.
  - rewrite <- (sum_Z_perm l l' Hp). apply IH.
    + rewrite Hp. exact Hall.
    + now rewrite (Permutation_length Hp).
Qed.

Lemma col_min_max_bounds xs x : In x xs -> col_min xs <= x <= col_max xs.
Proof.
  assert (Hmin : forall l a, fold_left Z.min l a <= a /\
                             forall y, In y l -> fold_left Z.min l a <= y).
  { induction l as [|b l IH]; intros a; cbn [fold_left].
    - split; [lia | intros y []].
    - destruct (IH (Z.min a b)) as [H1 H2]. split; [lia|].
      intros y [<- | Hy]; [lia | now apply H2]. }
  assert (Hmax : forall l a, a <= fold_left Z.max l a /\
                             forall y, In y l -> y <= fold_left Z.max l a).
  { induction l as [|b l IH]; intros a; cbn [fold_left].
    - split; [lia | intros y []].
    - destruct (IH (Z.max a b)) as [H1 H2]. split; [lia|].
      intros y [<- | Hy]; [lia | now apply H2]. }
  destruct xs as [|a xs]; [intros []|]. unfold col_min, col_max.
  destruct (Hmin xs a) as [M1 M2], (Hmax xs a) as [X1 X2].
  intros [<- | Hx]; [lia|]. split; [now apply M2 | now apply X2].
Qed.

Lemma sum_Z_between xs lo hi :
  (forall x, In x xs -> lo <= x <= hi) ->
  lo * Z.of_nat (length xs) <= sum_Z xs <= hi * Z.of_nat (length xs).
Proof.
  induction xs as [|x xs IH]; intros Hb; cbn [sum_Z fold_right length].
  - lia.
  - fold (sum_Z xs). pose proof (Hb x (or_introl eq_refl)).
    assert (IH' := IH (fun y Hy => Hb y (or_intror Hy))). lia.
Qed.

(** The mean of a non-empty int32 column of fewer than 2^22 elements lies
    between any two integers that bound the column. *)
Lemma np_mean_between xs lo hi :
  xs <> [] -> Forall int32_range xs -> Z.of_nat (length xs) < 2 ^ 22 ->
  (forall x, In x xs -> lo <= x <= hi) ->
  exists q, F64.to_Q (np_mean xs) = Some q /\ (inject_Z lo <= q)%Q /\ (q <= inject_Z hi)%Q.
Proof.
  intros Hne Hall Hlen Hb.
  pose proof (sum_Z_bound xs Hall) as Hs.
  pose proof (sum_Z_between xs lo hi Hb) as [Hlo Hhi].
  set (n := Z.of_nat (length xs)) in *.
  assert (Hn : 0 < n) by (unfold n; destruct xs; [congruence | cbn [length]; lia]).
  unfold np_mean. rewrite np_sum_f64_exact by assumption. fold n.
  rewrite !of_Z_canon by lia.
  assert (En : canon_Z n = canon false n) by (destruct n; try lia; reflexivity).
  rewrite En. set (z := sum_Z xs) in *.
  assert (Hden : forall e, Z.pos (Z.to_pos (2 ^ Z.max 0 (- e))) = 2 ^ Z.max 0 (- e)).
  { intros e. apply Z2Pos.id, Z.pow_pos_nonneg; lia. }
  destruct z as [|p|p] eqn:Ez; cbn [canon_Z].
  - exists 0%Q. split; [reflexivity|]. unfold Qle; cbn. nia.
  - destruct (div_canon_bounds false (Z.pos p) n) as (m & e & Ed & Hk); [lia | lia|].
    unfold F64.div, F64.prec, F64.emax. rewrite Ed. eexists. split; [reflexivity|].
    destruct (Hk lo) as [L _], (Hk hi) as [_ U].
    unfold Qle. cbn [Qnum Qden inject_Z cond_Zopp]. rewrite Hden.
    split; [specialize (L ltac:(lia)) | specialize (U ltac:(lia))]; lia.
  - destruct (div_canon_bounds true (Z.pos p) n) as (m & e & Ed & Hk); [lia | lia|].
    unfold F64.div, F64.prec, F64.emax. rewrite Ed. eexists. split; [reflexivity|].
    destruct (Hk (- hi)) as [L _], (Hk (- lo)) as [_ U].
    unfold Qle. cbn [Qnum Qden inject_Z cond_Zopp]. rewrite Hden.
    split; [specialize (U ltac:(lia)) | specialize (L ltac:(lia))]; lia.
Qed.

(** ** Statistics Aggregator *)

Lemma wf_table_columns rows :
  wf_table rows ->
  Forall int32_range (map heart_rate rows) /\
  Forall int32_range (map blood_pressure_systolic rows) /\
  Forall int32_range (map glucose_level rows).
Proof.
  intros [_ Hall]. repeat split; apply Forall_map; eapply Forall_impl; try exact Hall;
    intros r (H1 & H2 & H3 & H4); assumption.
Qed.

Lemma np_mean_spec_mean xs :
  Forall int32_range xs -> Z.of_nat (length xs) < 2 ^ 22 -> np_mean xs = spec_mean xs.
Proof.
  intros Hall Hlen. unfold np_mean, spec_mean. now rewrite np_sum_f64_exact.
Qed.


Lemma stats_of_lookup rows :
  stats_of rows !! "avg_heart_rate" = Some (np_mean (map heart_rate rows)) /\
  stats_of rows !! "avg_systolic_bp" = Some (np_mean (map blood_pressure_systolic rows)) /\
  stats_of rows !! "avg_glucose" = Some (np_mean (map glucose_level rows)).
Proof. unfold stats_of. repeat split; simplify_map_eq; reflexivity. Qed.

(** C1: for every table the aggregator returns a dictionary with exactly the
    three keys avg_heart_rate, avg_systolic_bp and avg_glucose; each entry is
    the float64 sum of its column divided by the row count.  For a table of
    int32 values with fewer than 2^22 rows the float64 sum is the exact sum
    of the column, so that the entry is the exact sum divided by the count,
    rounded once. *)
Theorem calculate_statistics_means (h : heap) (data : loc) (rows : list Reading) :
  h !! data = Some (StructArr rows) ->
  exists stats,
    calculate_statistics data h = inr (stats, h) /\
    dom stats = stats_keys /\
    size stats = 3%nat /\
    stats !! "avg_heart_rate" = Some (np_mean (map heart_rate rows)) /\
    stats !! "avg_systolic_bp" = Some (np_mean (map blood_pressure_systolic rows)) /\
    stats !! "avg_glucose" = Some (np_mean (map glucose_level rows)) /\
    (wf_table rows -> Z.of_nat (length rows) < 2 ^ 22 ->
     stats !! "avg_heart_rate" = Some (spec_mean (map heart_rate rows)) /\
     stats !! "avg_systolic_bp" = Some (spec_mean (map blood_pressure_systolic rows)) /\
     stats !! "avg_glucose" = Some (spec_mean (map glucose_level rows))).
Proof.
  intros Hd. exists (stats_of rows).
  destruct (stats_of_lookup rows) as (L1 & L2 & L3).
  split; [now apply calculate_statistics_run|].
  split; [apply dom_stats_of|].
  split; [rewrite <- size_dom, dom_stats_of; reflexivity|].
  split; [exact L1|]. split; [exact L2|]. split; [exact L3|].
  intros Hwf Hlen. destruct (wf_table_columns rows Hwf) as (C1 & C2 & C3).
  rewrite L1, L2, L3.
  rewrite !np_mean_spec_mean by (rewrite ?length_map; assumption).
  repeat split; reflexivity.
Qed.

Lemma wf_three_rows : wf_table three_rows.
Proof.
  split; [cbn; lia|].
  repeat constructor; unfold int32_range; cbn; lia.
Defined.

Lemma calculate_statistics_means_witness :
  exists stats,
    calculate_statistics 1%positive (heap_with three_rows) = inr (stats, heap_with three_rows) /\
    stats !! "avg_heart_rate" = Some (spec_mean [80; 95; 100]).
Proof.
  destruct (calculate_statistics_means (heap_with three_rows) 1%positive three_rows)
    as (stats & R & _ & _ & _ & _ & _ & Hs).
  - reflexivity.
  - exists stats. split; [exact R|].
    destruct (Hs wf_three_rows) as (E & _); [cbn; lia | exact E].
Defined.



(** ** [makedirs] stays within its recursion depth *)

Lemma length_substring_le n m s :
  (String.length (substring n m s) <= m)%nat /\
  (String.length (substring n m s) <= String.length s - n)%nat.
Proof.
  revert n m. induction s as [|a s IH]; intros n m.
  - destruct n, m; cbn; lia.
  - destruct n as [|n].
    + destruct m as [|m]; cbn [substring String.length]; [lia|].
      destruct (IH 0%nat m). lia.
    + cbn [substring String.length]. destruct (IH n m). lia.
Qed.

Lemma length_rstrip s : (String.length (rstrip s) <= String.length s)%nat.
Proof.
  induction s as [|a s IH]; cbn [rstrip String.length]; [lia|].
  destruct (rstrip s); [destruct (Ascii.eqb a sep)|]; cbn [String.length] in *; lia.
Qed.

Lemma path_split_length p :
  (String.length (fst (path_split p)) + String.length (snd (path_split p))
   <= String.length p)%nat.
Proof.
  unfold path_split. cbn [fst snd].
  destruct (length_substring_le 0 (rfind1 p) p) as [H1 H2].
  destruct (length_substring_le (rfind1 p) (String.length p - rfind1 p) p) as [H3 H4].
  pose proof (length_rstrip (substring 0 (rfind1 p) p)).
  destruct (negb (is_empty _) && negb (all_sep _)); lia.
Qed.

Lemma is_empty_length s : is_empty s = false -> (1 <= String.length s)%nat.
Proof. destruct s; [discriminate | cbn; lia]. Qed.

Lemma mkdir_no_recursion_error p fs : fst (mkdir p fs) <> inl RecursionError.
Proof.
  unfold mkdir, check_parent.
  destruct (is_empty p); [discriminate|].
  destruct (path_exists fs p); [discriminate|].
  destruct (key_lookup fs (removelast (path_key p))) as [[|c]|]; discriminate.
Qed.

(** The fuel of [makedirs] is enough: it never runs out of it. *)
Lemma makedirs_fuel_enough fuel : forall name fs,
  (String.length name < fuel)%nat ->
  fst (makedirs_fuel fuel name fs) <> inl RecursionError.
Proof.
  induction fuel as [|fuel IH]; intros name fs Hlen; [lia|].
  cbn [makedirs_fuel].
  pose proof (path_split_length name) as H1.
  destruct (path_split name) as [head tail] eqn:E1. cbn [fst snd] in H1.
  assert (Hsplit : exists head' tail',
            (if is_empty tail then path_split head else (head, tail)) = (head', tail') /\
            (String.length head' + String.length tail' <= String.length name)%nat).
  { destruct (is_empty tail).
    - pose proof (path_split_length head) as H2.
      destruct (path_split head) as [h2 t2]. cbn [fst snd] in H2.
      exists h2, t2. split; [reflexivity | lia].
    - exists head, tail. split; [reflexivity | lia]. }
  destruct Hsplit as (head' & tail' & -> & H2).
  assert (Hfinal : forall fs0,
            fst (match mkdir name fs0 with
                 | (inl e, fs') => if path_isdir fs' name then (inr tt, fs') else (inl e, fs')
                 | ok => ok
                 end) <> inl RecursionError).
  { intros fs0. pose proof (mkdir_no_recursion_error name fs0) as Hm.
    destruct (mkdir name fs0) as [[e|[]] fs']; cbn [fst] in *; [|discriminate].
    destruct (path_isdir fs' name); [discriminate | exact Hm]. }
  destruct (negb (is_empty head') && negb (is_empty tail') && negb (path_exists fs head'))
    eqn:Hc; [|apply Hfinal].
  apply andb_true_iff in Hc as [Hc _]. apply andb_true_iff in Hc as [_ Ht].
  apply negb_true_iff, is_empty_length in Ht.
  pose proof (IH head' fs ltac:(lia)) as Hrec.
  destruct (makedirs_fuel fuel head' fs) as [[e|[]] fs'] eqn:Er; cbn [fst] in Hrec.
  - destruct e; try (cbn [fst]; discriminate); try congruence;
      destruct (String.eqb tail' "."); try (cbn [fst]; discriminate); apply Hfinal.
  - destruct (String.eqb tail' "."); [cbn [fst]; discriminate | apply Hfinal].
Qed.

Lemma makedirs_no_recursion_error name fs : fst (makedirs name fs) <> inl RecursionError.
Proof. apply makedirs_fuel_enough. lia. Qed.

(** ** Independence from the order of the additions *)

(** The left fold of [np_sum_f64] is one of the orders of [f64_sum]. *)
Lemma f64_sum_fold_left xs : forall l a,
  f64_sum l a ->
  f64_sum (l ++ xs) (fold_left (fun acc x => F64.add acc (F64.of_Z x)) xs a).
Proof.
  induction xs as [|x xs IH]; intros l a Hl; cbn [fold_left].
  - now rewrite app_nil_r.
  - replace (l ++ x :: xs) with ((l ++ [x]) ++ xs) by now rewrite <- app_assoc.
    apply IH. apply f64_sum_app; [exact Hl | apply f64_sum_one].
Qed.

Lemma f64_sum_np_sum_f64 xs : f64_sum xs (np_sum_f64 xs).
Proof. apply (f64_sum_fold_left xs [] (S754_zero false)), f64_sum_nil. Qed.

(** Whatever the order in which the column is summed, the resulting mean of
    an int32 column of fewer than 2^22 elements is the one of [np_mean]. *)
Lemma mean_any_order xs s :
  f64_sum xs s -> Forall int32_range xs -> Z.of_nat (length xs) < 2 ^ 22 ->
  F64.div s (F64.of_Z (Z.of_nat (length xs))) = np_mean xs.
Proof.
  intros Hs Hall Hlen. unfold np_mean.
  rewrite (f64_sum_exact xs s Hs Hall Hlen), np_sum_f64_exact by assumption.
  reflexivity.
Qed.

(** * Further properties of the script *)

(** ** [generate_report]: missing keys and line structure *)

(** X1: [generate_report] raises KeyError for the first of the six keys
    avg_heart_rate, avg_systolic_bp, avg_glucose, high_heart_rate,
    high_blood_pressure, high_glucose (in this order) that its dictionaries
    lack, and returns a report exactly when none is missing. *)
Theorem generate_report_key_error
    (stats : gmap string spec_float) (abnormal : gmap string Z) (total : Z) :
  match first_missing_key stats abnormal with
  | Some k => generate_report stats abnormal total = inl (KeyError k)
  | None => exists r, generate_report stats abnormal total = inr r
  end.
Proof.
  unfold first_missing_key, generate_report, dict_get.
  destruct (stats !! "avg_heart_rate"); [|reflexivity].
  destruct (stats !! "avg_systolic_bp"); [|reflexivity].
  destruct (stats !! "avg_glucose"); [|reflexivity].
  destruct (abnormal !! "high_heart_rate"); [|reflexivity].
  destruct (abnormal !! "high_blood_pressure"); [|reflexivity].
  destruct (abnormal !! "high_glucose"); [|reflexivity].
  eexists. reflexivity.
Qed.

Lemma generate_report_inv stats abnormal total r :
  generate_report stats abnormal total = inr r ->
  exists hr bp gl n1 n2 n3,
    stats !! "avg_heart_rate" = Some hr /\ stats !! "avg_systolic_bp" = Some bp /\
    stats !! "avg_glucose" = Some gl /\ abnormal !! "high_heart_rate" = Some n1 /\
    abnormal !! "high_blood_pressure" = Some n2 /\ abnormal !! "high_glucose" = Some n3 /\
    r = report_template (py_str_int total) (format_1f hr) (format_1f bp) (format_1f gl)
          (py_str_int n1) (py_str_int n2) (py_str_int n3).
Proof.
  intros Hr.
  pose proof (generate_report_key_error stats abnormal total) as Hk.
  unfold first_missing_key in Hk.
  destruct (stats !! "avg_heart_rate") as [hr|] eqn:E1; [|congruence].
  destruct (stats !! "avg_systolic_bp") as [bp|] eqn:E2; [|congruence].
  destruct (stats !! "avg_glucose") as [gl|] eqn:E3; [|congruence].
  destruct (abnormal !! "high_heart_rate") as [n1|] eqn:E4; [|congruence].
  destruct (abnormal !! "high_blood_pressure") as [n2|] eqn:E5; [|congruence].
  destruct (abnormal !! "high_glucose") as [n3|] eqn:E6; [|congruence].
  exists hr, bp, gl, n1, n2, n3. repeat (split; [reflexivity|]).
  rewrite (generate_report_template _ _ total _ _ _ _ _ _ E1 E2 E3 E4 E5 E6) in Hr.
  congruence.
Qed.

Lemma count_newlines_app a b :
  count_newlines (a +:+ b) = (count_newlines a + count_newlines b)%nat.
Proof.
  induction a as [|c a IH]; [reflexivity|].
  change (count_newlines (String c (a +:+ b))
          = (count_newlines (String c a) + count_newlines b)%nat).
  cbn [count_newlines]. rewrite IH. lia.
Qed.

Lemma is_digit_not_newline c : is_digit c = true -> Ascii.eqb c (ascii_of_nat 10) = false.
Proof.
  destruct c as [[] [] [] [] [] [] [] []]; try reflexivity; discriminate.
Qed.

Lemma count_newlines_digits s : all_digits s = true -> count_newlines s = 0%nat.
Proof.
  induction s as [|c s IH]; [reflexivity|]. intros H.
  change (is_digit c && all_digits s = true) in H.
  apply andb_true_iff in H as [Hc Hs]. cbn [count_newlines].
  rewrite (is_digit_not_newline c Hc), (IH Hs). reflexivity.
Qed.

Lemma count_newlines_py_str_int z : count_newlines (py_str_int z) = 0%nat.
Proof.
  unfold py_str_int. destruct z as [|p|p].
  - reflexivity.
  - apply count_newlines_digits, pretty_positive_digits.
  - change (pretty (Z.neg p)) with ("-" +:+ pretty (Z.pos p)).
    rewrite count_newlines_app, (count_newlines_digits (pretty (Z.pos p)))
      by apply pretty_positive_digits.
    reflexivity.
Qed.

Lemma count_newlines_format_1f x : count_newlines (format_1f x) = 0%nat.
Proof.
  destruct x as [s|s| |s m e]; try (destruct s; reflexivity); [reflexivity|].
  unfold format_1f. rewrite !count_newlines_app, !count_newlines_py_str_int.
  destruct s; reflexivity.
Qed.

Lemma count_newlines_report_template total hr bp gl n1 n2 n3 :
  count_newlines (report_template total hr bp gl n1 n2 n3)
  = (15 + count_newlines total + count_newlines hr + count_newlines bp + count_newlines gl
     + count_newlines n1 + count_newlines n2 + count_newlines n3)%nat.
Proof.
  unfold report_template. rewrite !count_newlines_app.
  generalize (count_newlines total), (count_newlines hr), (count_newlines bp),
    (count_newlines gl), (count_newlines n1), (count_newlines n2), (count_newlines n3).
  intros. simpl. lia.
Qed.

(** X2: every report that [generate_report] returns has exactly 15 line
    breaks, that is 16 lines of which the last is empty: no value, finite or
    not, negative or not, is ever printed across lines. *)
Theorem generate_report_line_breaks
    (stats : gmap string spec_float) (abnormal : gmap string Z) (total : Z) (r : string) :
  generate_report stats abnormal total = inr r -> count_newlines r = 15%nat.
Proof.
  intros Hr.
  destruct (generate_report_inv _ _ _ _ Hr) as (hr & bp & gl & n1 & n2 & n3 & _ & _ & _ & _ & _ & _ & ->).
  rewrite count_newlines_report_template, !count_newlines_py_str_int,
    !count_newlines_format_1f. reflexivity.
Qed.

Lemma generate_report_line_breaks_witness :
  count_newlines (report_template "0" "nan" "nan" "nan" "0" "0" "0") = 15%nat.
Proof.
  apply (generate_report_line_breaks nan_stats no_abnormal 0).
  vm_compute. reflexivity.
Defined.

(** ** [format_1f]: whole numbers and the rounding error *)

Lemma tenths_canon z :
  0 < z < 2 ^ 53 ->
  tenths (Z.to_pos (z * 2 ^ (53 - Zdigits2 z))) (Zdigits2 z - 53) = 10 * z.
Proof.
  intros Hz. pose proof (Zdigits2_le_53 z Hz) as Hd.
  unfold tenths. rewrite canon_mantissa by assumption.
  destruct (Z.leb_spec 0 (Zdigits2 z - 53)) as [He | He].
  - replace (Zdigits2 z - 53) with 0 by lia. replace (53 - Zdigits2 z) with 0 by lia.
    rewrite !Z.pow_0_r. lia.
  - replace (- (Zdigits2 z - 53)) with (53 - Zdigits2 z) by lia.
    assert (Hp : 0 < 2 ^ (53 - Zdigits2 z)) by (apply Z.pow_pos_nonneg; lia).
    unfold round_half_even.
    replace (10 * (z * 2 ^ (53 - Zdigits2 z))) with ((10 * z) * 2 ^ (53 - Zdigits2 z)) by lia.
    rewrite Z.mod_mul, Z.div_mul by lia.
    change (2 * 0) with 0.
    destruct (Z.compare_spec 0 (2 ^ (53 - Zdigits2 z))); [lia | reflexivity | lia].
Qed.

Lemma append_empty_l (s : string) : EmptyString +:+ s = s.
Proof. reflexivity. Qed.

Lemma format_1f_canon s z :
  0 < z < 2 ^ 53 -> format_1f (canon s z) = sign_str s +:+ py_str_int z +:+ ".0".
Proof.
  intros Hz. unfold canon, format_1f. cbv zeta. rewrite tenths_canon by assumption.
  replace (10 * z / 10) with z by (rewrite Z.mul_comm, Z.div_mul; lia).
  replace ((10 * z) mod 10) with 0 by (rewrite Z.mul_comm, Z.mod_mul; lia).
  reflexivity.
Qed.

(** X3: an average that is a whole number prints as that number followed by
    ".0": for every integer [z] below 2^53 in magnitude, formatting the float
    of [z] with '.1f' gives [str(z)] and ".0". *)
Theorem format_1f_whole_number (z : Z) :
  - 2 ^ 53 < z < 2 ^ 53 -> format_1f (F64.of_Z z) = py_str_int z +:+ ".0".
Proof.
  intros Hz. rewrite of_Z_canon by assumption. destruct z as [|p|p].
  - reflexivity.
  - cbn [canon_Z]. rewrite format_1f_canon by lia. reflexivity.
  - cbn [canon_Z]. rewrite format_1f_canon by lia.
    unfold py_str_int. change (pretty (Z.neg p)) with ("-" +:+ pretty (Z.pos p)).
    cbn [sign_str]. now rewrite append_assoc.
Qed.

Lemma format_1f_whole_number_witness : format_1f (F64.of_Z (-72)) = "-72.0".
Proof.
  change "-72.0" with (py_str_int (-72) +:+ ".0").
  apply (format_1f_whole_number (-72)). lia.
Defined.

Lemma round_half_even_error n d :
  0 < d -> 2 * Z.abs (n - round_half_even n d * d) <= d.
Proof.
  intros Hd. unfold round_half_even.
  pose proof (Z.div_mod n d ltac:(lia)) as Hdm.
  pose proof (Z.mod_pos_bound n d Hd) as Hm.
  destruct (Z.compare_spec (2 * (n mod d)) d) as [Heq | Hlt | Hgt].
  - destruct (Z.even (n / d)); nia.
  - nia.
  - nia.
Qed.

(** X4: '.1f' is correctly rounded: for a finite float of mantissa [m] and
    exponent [e], the printed number of tenths [T] (the digits before the
    point followed by the digit after it) is within one half of ten times
    the magnitude [m * 2^e], so that the printed value is within 0.05 of the
    value. *)
Theorem format_1f_rounding_error (s : bool) (m : positive) (e : Z) :
  exists T,
    0 <= T /\
    format_1f (S754_finite s m e)
      = sign_str s +:+ py_str_int (T / 10) +:+ "." +:+ py_str_int (T mod 10) /\
    2 * Z.abs (10 * Z.pos m * 2 ^ Z.max 0 e - T * 2 ^ Z.max 0 (- e)) <= 2 ^ Z.max 0 (- e).
Proof.
  exists (tenths m e). split; [apply tenths_nonneg|]. split; [reflexivity|].
  unfold tenths. destruct (Z.leb_spec 0 e) as [He | He].
  - rewrite (Z.max_r 0 e), (Z.max_l 0 (- e)), Z.pow_0_r by lia.
    rewrite Z.mul_1_r, Z.sub_diag. cbn. lia.
  - rewrite (Z.max_l 0 e), (Z.max_r 0 (- e)), Z.pow_0_r, Z.mul_1_r by lia.
    apply round_half_even_error. apply Z.pow_pos_nonneg; lia.
Qed.

(** ** The analysis as a whole *)

Lemma stats_of_lookup_col rows key col :
  In (key, col) stat_columns -> stats_of rows !! key = Some (np_mean (map col rows)).
Proof.
  destruct (stats_of_lookup rows) as (L1 & L2 & L3).
  intros [E | [E | [E | []]]]; injection E as <- <-; assumption.
Qed.

Lemma abnormal_of_lookup_col rows key col c :
  In (key, col, c) abnormal_columns -> Z.of_nat (length rows) < 2 ^ 63 ->
  abnormal_of rows !! key = Some (count_where (fun x => c <? x) (map col rows)).
Proof.
  intros Hin Hlen. destruct (abnormal_of_lookup rows Hlen) as (L1 & L2 & L3).
  destruct Hin as [E | [E | [E | []]]]; injection E as <- <- <-; assumption.
Qed.



(** X6: the report depends on the table only through its heart_rate,
    blood_pressure_systolic and glucose_level columns: two tables that agree
    on these three columns (and differ in patient ids, timestamps, diastolic
    pressure, temperature or sensor ids) give the same report. *)
Theorem analyze_ignores_other_fields
    (h h' : heap) (data data' : loc) (rows rows' : list Reading) :
  h !! data = Some (StructArr rows) ->
  h' !! data' = Some (StructArr rows') ->
  map heart_rate rows = map heart_rate rows' ->
  map blood_pressure_systolic rows = map blood_pressure_systolic rows' ->
  map glucose_level rows = map glucose_level rows' ->
  result_of (analyze data h) = result_of (analyze data' h').
Proof.
  intros Hd Hd' E1 E2 E3.
  rewrite (analyze_run h data rows Hd), (analyze_run h' data' rows' Hd').
  assert (Hlen : length rows = length rows').
  { rewrite <- (length_map heart_rate rows), E1. apply length_map. }
  unfold stats_of, abnormal_of. rewrite E1, E2, E3, Hlen. reflexivity.
Qed.

Lemma analyze_ignores_other_fields_witness :
  result_of (analyze 1%positive (heap_with [reading 90 130 110])) =
  result_of (analyze 1%positive
     (heap_with [{| patient_id := "P777"; timestamp := "later"; heart_rate := 90;
                    blood_pressure_systolic := 130; blood_pressure_diastolic := 95;
                    temperature := S754_nan; glucose_level := 110; sensor_id := "S9" |}])).
Proof.
  apply (analyze_ignores_other_fields _ _ 1%positive 1%positive
           [reading 90 130 110]
           [{| patient_id := "P777"; timestamp := "later"; heart_rate := 90;
               blood_pressure_systolic := 130; blood_pressure_diastolic := 95;
               temperature := S754_nan; glucose_level := 110; sensor_id := "S9" |}]);
    reflexivity.
Defined.

(** ** Row order, concatenation and bounds *)

Lemma count_where_perm p xs ys : Permutation xs ys -> count_where p xs = count_where p ys.
Proof.
  unfold count_where. intros Hp. f_equal.
  induction Hp as [|x l l' _ IH|x y l|l l' l'' _ IH1 _ IH2]; cbn [List.filter].
  - reflexivity.
  - destruct (p x); cbn [length]; congruence.
  - destruct (p x), (p y); reflexivity.
  - congruence.
Qed.

Lemma count_where_app p xs ys :
  count_where p (xs ++ ys) = count_where p xs + count_where p ys.
Proof.
  unfold count_where. rewrite List.filter_app, length_app. lia.
Qed.

Lemma count_where_bounds p xs : 0 <= count_where p xs <= Z.of_nat (length xs).
Proof.
  unfold count_where. pose proof (List.filter_length_le p xs). lia.
Qed.

Lemma np_mean_perm xs ys :
  Permutation xs ys -> Forall int32_range xs -> Z.of_nat (length xs) < 2 ^ 22 ->
  np_mean xs = np_mean ys.
Proof.
  intros Hp Hall Hlen.
  assert (Hall' : Forall int32_range ys) by (rewrite <- Hp; exact Hall).
  assert (Hlen' : length ys = length xs) by (symmetry; apply Permutation_length, Hp).
  rewrite !np_mean_spec_mean by (rewrite ?Hlen'; assumption).
  unfold spec_mean. now rewrite (sum_Z_perm xs ys Hp), Hlen'.
Qed.

Lemma wf_table_perm rows rows' : Permutation rows rows' -> wf_table rows -> wf_table rows'.
Proof.
  intros Hp [Hlen Hall]. split.
  - now rewrite <- (Permutation_length Hp).
  - now rewrite <- Hp.
Qed.

(** X7: the order of the rows does not matter: for a table of int32 values
    with fewer than 2^22 rows, any reordering of the rows gives the same
    statistics, the same counts and the same report. *)
Theorem analyses_row_order_invariant
    (h h' : heap) (data data' : loc) (rows rows' : list Reading) :
  h !! data = Some (StructArr rows) ->
  h' !! data' = Some (StructArr rows') ->
  Permutation rows rows' ->
  wf_table rows ->
  Z.of_nat (length rows) < 2 ^ 22 ->
  result_of (calculate_statistics data h) = result_of (calculate_statistics data' h') /\
  result_of (find_abnormal_readings data h) = result_of (find_abnormal_readings data' h') /\
  result_of (analyze data h) = result_of (analyze data' h').
Proof.
  intros Hd Hd' Hp Hwf Hlen.
  destruct (wf_table_columns rows Hwf) as (C1 & C2 & C3).
  assert (Hlen' : length rows' = length rows) by (symmetry; apply Permutation_length, Hp).
  assert (Es : stats_of rows = stats_of rows').
  { unfold stats_of.
    rewrite (np_mean_perm (map heart_rate rows) (map heart_rate rows')),
      (np_mean_perm (map blood_pressure_systolic rows) (map blood_pressure_systolic rows')),
      (np_mean_perm (map glucose_level rows) (map glucose_level rows'));
      rewrite ?length_map; auto using Permutation_map. }
  assert (Ea : abnormal_of rows = abnormal_of rows').
  { unfold abnormal_of.
    rewrite !np_sum_bool_gt by (rewrite length_map; lia).
    rewrite (count_where_perm _ _ _ (Permutation_map heart_rate Hp)),
      (count_where_perm _ _ _ (Permutation_map blood_pressure_systolic Hp)),
      (count_where_perm _ _ _ (Permutation_map glucose_level Hp)).
    reflexivity. }
  destruct (find_abnormal_readings_run h data rows Hd) as (k & R & _ & _).
  destruct (find_abnormal_readings_run h' data' rows' Hd') as (k' & R' & _ & _).
  rewrite (calculate_statistics_run h data rows Hd),
    (calculate_statistics_run h' data' rows' Hd'), R, R',
    (analyze_run h data rows Hd), (analyze_run h' data' rows' Hd').
  cbn [result_of]. rewrite Es, Ea, Hlen'. repeat split; reflexivity.
Qed.

Lemma analyses_row_order_invariant_witness :
  result_of (analyze 1%positive (heap_with three_rows)) =
  result_of (analyze 1%positive (heap_with (rev three_rows))).
Proof.
  destruct (analyses_row_order_invariant (heap_with three_rows) (heap_with (rev three_rows))
              1%positive 1%positive three_rows (rev three_rows)) as (_ & _ & E).
  - reflexivity.
  - reflexivity.
  - apply Permutation_rev.
  - exact wf_three_rows.
  - cbn. lia.
  - exact E.
Defined.

(** X8: the counts are additive: the scanner's counts for two tables put one
    after the other are the sums of its counts for each of them. *)
Theorem abnormal_counts_additive
    (h1 h2 h : heap) (d1 d2 d : loc) (rows1 rows2 : list Reading) :
  h1 !! d1 = Some (StructArr rows1) ->
  h2 !! d2 = Some (StructArr rows2) ->
  h !! d = Some (StructArr (rows1 ++ rows2)) ->
  Z.of_nat (length (rows1 ++ rows2)) < 2 ^ 63 ->
  exists a1 a2 a,
    result_of (find_abnormal_readings d1 h1) = inr a1 /\
    result_of (find_abnormal_readings d2 h2) = inr a2 /\
    result_of (find_abnormal_readings d h) = inr a /\
    forall key, key ∈ abnormal_keys ->
      exists n1 n2, a1 !! key = Some n1 /\ a2 !! key = Some n2 /\ a !! key = Some (n1 + n2).
Proof.
  intros H1 H2 H Hlen. rewrite length_app, Nat2Z.inj_add in Hlen.
  destruct (find_abnormal_readings_run h1 d1 rows1 H1) as (k1 & R1 & _ & _).
  destruct (find_abnormal_readings_run h2 d2 rows2 H2) as (k2 & R2 & _ & _).
  destruct (find_abnormal_readings_run h d (rows1 ++ rows2) H) as (k & R & _ & _).
  exists (abnormal_of rows1), (abnormal_of rows2), (abnormal_of (rows1 ++ rows2)).
  rewrite R1, R2, R. repeat (split; [reflexivity|]).
  destruct (abnormal_of_lookup rows1 ltac:(lia)) as (A1 & A2 & A3).
  destruct (abnormal_of_lookup rows2 ltac:(lia)) as (B1 & B2 & B3).
  destruct (abnormal_of_lookup (rows1 ++ rows2)
              ltac:(rewrite length_app, Nat2Z.inj_add; lia)) as (X1 & X2 & X3).
  rewrite !map_app, !count_where_app in X1, X2, X3.
  intros key Hkey. unfold abnormal_keys in Hkey.
  apply elem_of_union in Hkey as [Hkey | Hkey];
    [apply elem_of_union in Hkey as [Hkey | Hkey]|];
    apply elem_of_singleton in Hkey; subst key; eauto.
Qed.

Lemma abnormal_counts_additive_witness :
  exists a1 a2 a n1 n2,
    result_of (find_abnormal_readings 1%positive (heap_with three_rows)) = inr a1 /\
    result_of (find_abnormal_readings 1%positive (heap_with threshold_row)) = inr a2 /\
    result_of (find_abnormal_readings 1%positive (heap_with (three_rows ++ threshold_row)))
      = inr a /\
    a1 !! "high_glucose" = Some n1 /\ a2 !! "high_glucose" = Some n2 /\
    a !! "high_glucose" = Some (n1 + n2).
Proof.
  destruct (abnormal_counts_additive (heap_with three_rows) (heap_with threshold_row)
              (heap_with (three_rows ++ threshold_row)) 1%positive 1%positive 1%positive
              three_rows threshold_row) as (a1 & a2 & a & R1 & R2 & R & Hk);
    [reflexivity | reflexivity | reflexivity | cbn; lia |].
  destruct (Hk "high_glucose") as (n1 & n2 & L1 & L2 & L).
  - unfold abnormal_keys. set_solver.
  - exists a1, a2, a, n1, n2. repeat split; assumption.
Defined.

(** X9: every count the scanner returns lies between 0 and the number of
    rows of the table. *)
Theorem abnormal_counts_bounded (h : heap) (data : loc) (rows : list Reading) :
  h !! data = Some (StructArr rows) ->
  Z.of_nat (length rows) < 2 ^ 63 ->
  exists a, result_of (find_abnormal_readings data h) = inr a /\
    forall key n, a !! key = Some n -> 0 <= n <= Z.of_nat (length rows).
Proof.
  intros Hd Hlen.
  destruct (find_abnormal_readings_run h data rows Hd) as (k & R & _ & _).
  exists (abnormal_of rows). rewrite R. split; [reflexivity|].
  destruct (abnormal_of_lookup rows Hlen) as (A1 & A2 & A3).
  intros key n Hn.
  assert (Hkey : key ∈ dom (abnormal_of rows)) by (apply elem_of_dom; eauto).
  rewrite dom_abnormal_of in Hkey. unfold abnormal_keys in Hkey.
  apply elem_of_union in Hkey as [Hkey | Hkey];
    [apply elem_of_union in Hkey as [Hkey | Hkey]|];
    apply elem_of_singleton in Hkey; subst key;
    rewrite ?A1, ?A2, ?A3 in Hn; injection Hn as <-;
    match goal with
    | |- _ <= count_where ?p (map ?f rows) <= _ =>
        pose proof (count_where_bounds p (map f rows)) as Hb;
        rewrite length_map in Hb; exact Hb
    end.
Qed.

Lemma abnormal_counts_bounded_witness :
  exists a, result_of (find_abnormal_readings 1%positive (heap_with three_rows)) = inr a /\
    forall key n, a !! key = Some n -> 0 <= n <= 3.
Proof.
  apply (abnormal_counts_bounded (heap_with three_rows) 1%positive three_rows).
  - reflexivity.
  - cbn. lia.
Defined.

(** ** Means that are exact, and means of non-empty tables *)

Lemma Zdigits2_mul_le a b : 0 < a -> 0 < b -> Zdigits2 (a * b) <= Zdigits2 a + Zdigits2 b.
Proof.
  intros Ha Hb.
  pose proof (Zdigits2_bounds a Ha) as [_ Ha']. pose proof (Zdigits2_bounds b Hb) as [_ Hb'].
  pose proof (Zdigits2_pos a Ha). pose proof (Zdigits2_pos b Hb).
  assert (Hab : 0 < a * b) by nia.
  assert (Hlt : a * b < 2 ^ (Zdigits2 a + Zdigits2 b)).
  { rewrite Z.pow_add_r by lia. nia. }
  destruct (a * b) as [|p|p] eqn:E; try lia. cbn [Zdigits2]. rewrite digits2_pos_log2.
  assert (Z.log2 (Z.pos p) < Zdigits2 a + Zdigits2 b) by (apply Z.log2_lt_pow2; lia). lia.
Qed.

(** A quotient that is an integer is computed exactly. *)
Lemma div_canon_exact s c n :
  0 < c -> 0 < n -> n * c < 2 ^ 53 ->
  SFdiv 53 1024 (canon s (n * c)) (canon false n) = canon s c.
Proof.
  intros Hc Hn Hz.
  assert (Hz' : 0 < n * c < 2 ^ 53) by nia.
  assert (Hn' : 0 < n < 2 ^ 53) by nia.
  assert (Hc' : 0 < c < 2 ^ 53) by nia.
  pose proof (canon_mantissa (n * c) Hz') as Ez. pose proof (canon_mantissa n Hn') as En.
  pose proof (canon_mantissa_bounds (n * c) Hz') as Bz.
  pose proof (canon_mantissa_bounds n Hn') as Bn.
  pose proof (canon_mantissa_bounds c Hc') as Bc.
  pose proof (Zdigits2_pos (n * c) (proj1 Hz')) as Dz1.
  pose proof (Zdigits2_le_53 (n * c) Hz') as Dz2.
  pose proof (Zdigits2_pos n Hn) as Dn1. pose proof (Zdigits2_le_53 n Hn') as Dn2.
  pose proof (Zdigits2_pos c Hc) as Dc1. pose proof (Zdigits2_le_53 c Hc') as Dc2.
  pose proof (Zdigits2_mul_le n c Hn Hc) as Dmul.
  unfold canon at 1 2. unfold SFdiv. rewrite Ez, En.
  set (dz := Zdigits2 (n * c)) in *. set (dn := Zdigits2 n) in *. set (dc := Zdigits2 c) in *.
  rewrite SFdiv_core_canon by lia. rewrite xorb_false_r.
  set (mn := n * 2 ^ (53 - dn)) in *.
  assert (Hnum : n * c * 2 ^ (53 - dz) * 2 ^ 53 = c * 2 ^ (53 - dz + dn) * mn).
  { unfold mn. replace (53 - dz + dn) with ((53 - dz) + dn) by lia.
    replace (2 ^ 53) with (2 ^ dn * 2 ^ (53 - dn)).
    - rewrite (Z.pow_add_r 2 (53 - dz) dn) by lia. ring.
    - rewrite <- Z.pow_add_r by lia. f_equal. lia. }
  rewrite Hnum, Z.div_mul, Z.mod_mul by lia.
  assert (Hloc : new_location mn 0 = loc_Exact).
  { unfold new_location, new_location_even, new_location_odd. destruct (Z.even mn); reflexivity. }
  rewrite Hloc.
  replace (c * 2 ^ (53 - dz + dn)) with (c * 2 ^ (53 - dc) * 2 ^ (dc + dn - dz)).
  2:{ rewrite <- Z.mul_assoc, <- Z.pow_add_r by lia. f_equal. f_equal. lia. }
  rewrite binary_round_aux_exact.
  - unfold canon. fold dc. f_equal. lia.
  - lia.
  - lia.
  - rewrite Zdigits2_mul_pow2 by lia. rewrite (Zdigits2_unique (c * 2 ^ (53 - dc)) 53) by lia.
    rewrite fexp_small by lia. lia.
  - lia.
Qed.

Lemma np_mean_divisible xs c :
  xs <> [] -> Forall int32_range xs -> Z.of_nat (length xs) < 2 ^ 22 ->
  sum_Z xs = Z.of_nat (length xs) * c ->
  np_mean xs = F64.of_Z c.
Proof.
  intros Hne Hall Hlen Hsum.
  pose proof (sum_Z_bound xs Hall) as Hs.
  set (n := Z.of_nat (length xs)) in *.
  assert (Hn : 0 < n) by (unfold n; destruct xs; [congruence | cbn [length]; lia]).
  assert (Hc : - 2 ^ 53 < c < 2 ^ 53) by nia.
  unfold np_mean. rewrite np_sum_f64_exact by assumption. fold n.
  rewrite !of_Z_canon by lia. rewrite Hsum.
  assert (En : canon_Z n = canon false n) by (destruct n; try lia; reflexivity).
  rewrite En. unfold F64.div, F64.prec, F64.emax.
  destruct c as [|p|p].
  - rewrite Z.mul_0_r. reflexivity.
  - assert (E : canon_Z (n * Z.pos p) = canon false (n * Z.pos p))
      by (destruct (n * Z.pos p) eqn:E'; try lia; reflexivity).
    rewrite E. cbn [canon_Z]. apply div_canon_exact; lia.
  - assert (E : canon_Z (n * Z.neg p) = canon true (n * Z.pos p)).
    { replace (n * Z.neg p) with (- (n * Z.pos p)) by lia.
      destruct (n * Z.pos p) eqn:E'; try lia; reflexivity. }
    rewrite E. cbn [canon_Z]. apply div_canon_exact; lia.
Qed.

Lemma sum_Z_constant xs c : (forall x, In x xs -> x = c) -> sum_Z xs = Z.of_nat (length xs) * c.
Proof.
  induction xs as [|x xs IH]; intros Hall; cbn [sum_Z fold_right length].
  - lia.
  - fold (sum_Z xs). rewrite IH by (intros y Hy; apply Hall; now right).
    rewrite (Hall x) by now left. lia.
Qed.

(** X10: when the sum of a column is a multiple of the number of rows, the
    mean is computed without any rounding: it is the float of the integer
    quotient, and it prints as that integer followed by ".0".  This is the
    case of a single row and of a column whose values are all equal (see
    [sum_Z_constant]).  (Tables of int32 values with fewer than 2^22 rows.) *)
Theorem mean_of_divisible_sum_exact
    (h : heap) (data : loc) (rows : list Reading) (key : string) (col : Reading -> Z) (c : Z) :
  h !! data = Some (StructArr rows) ->
  rows <> [] ->
  wf_table rows ->
  Z.of_nat (length rows) < 2 ^ 22 ->
  In (key, col) stat_columns ->
  sum_Z (map col rows) = Z.of_nat (length rows) * c ->
  exists stats,
    calculate_statistics data h = inr (stats, h) /\
    stats !! key = Some (F64.of_Z c) /\
    format_1f (F64.of_Z c) = py_str_int c +:+ ".0".
Proof.
  intros Hd Hne Hwf Hlen Hin Hsum.
  destruct (wf_table_columns rows Hwf) as (C1 & C2 & C3).
  assert (Hcol : Forall int32_range (map col rows)).
  { destruct Hin as [E | [E | [E | []]]]; injection E as <- <-; assumption. }
  assert (Hne' : map col rows <> []) by (destruct rows; [congruence | discriminate]).
  exists (stats_of rows). split; [now apply calculate_statistics_run|].
  pose proof (sum_Z_bound _ Hcol) as Hb. rewrite length_map in Hb.
  assert (Hn : 0 < Z.of_nat (length rows)) by (destruct rows; [congruence | cbn [length]; lia]).
  split.
  - rewrite (stats_of_lookup_col rows key col Hin). f_equal.
    apply np_mean_divisible; rewrite ?length_map; assumption.
  - apply format_1f_whole_number. nia.
Qed.

Lemma mean_of_divisible_sum_exact_witness :
  exists stats,
    calculate_statistics 1%positive (heap_with [reading 72 120 100; reading 72 110 90])
    = inr (stats, heap_with [reading 72 120 100; reading 72 110 90]) /\
    stats !! "avg_heart_rate" = Some (F64.of_Z 72) /\
    format_1f (F64.of_Z 72) = "72.0".
Proof.
  apply (mean_of_divisible_sum_exact (heap_with [reading 72 120 100; reading 72 110 90])
           1%positive [reading 72 120 100; reading 72 110 90] "avg_heart_rate" heart_rate 72).
  - reflexivity.
  - discriminate.
  - split; [cbn; lia|]. repeat constructor; unfold int32_range; cbn; lia.
  - cbn. lia.
  - left. reflexivity.
  - reflexivity.
Defined.

(** X11: on a non-empty table (int32 values, fewer than 2^22 rows) none of
    the three means is NaN or infinite, and each of them prints with exactly
    one digit after the decimal point; "nan" appears in a report only for an
    empty table. *)
Theorem means_of_nonempty_table_finite (h : heap) (data : loc) (rows : list Reading) :
  h !! data = Some (StructArr rows) ->
  rows <> [] ->
  wf_table rows ->
  Z.of_nat (length rows) < 2 ^ 22 ->
  exists stats,
    calculate_statistics data h = inr (stats, h) /\
    forall key m, stats !! key = Some m ->
      F64.is_finite m = true /\ one_decimal (format_1f m) = true.
Proof.
  intros Hd Hne Hwf Hlen.
  destruct (wf_table_columns rows Hwf) as (C1 & C2 & C3).
  destruct (stats_of_lookup rows) as (L1 & L2 & L3).
  exists (stats_of rows). split; [now apply calculate_statistics_run|].
  assert (Hfin : forall col : Reading -> Z, Forall int32_range (map col rows) ->
                   F64.is_finite (np_mean (map col rows)) = true).
  { intros col Hcol.
    destruct (np_mean_between (map col rows) (col_min (map col rows)) (col_max (map col rows)))
      as (q & Hq & _); rewrite ?length_map; auto using col_min_max_bounds.
    - destruct rows; [congruence | discriminate].
    - destruct (np_mean (map col rows)); try discriminate; reflexivity. }
  intros key m Hm.
  assert (Hkey : key ∈ dom (stats_of rows)) by (apply elem_of_dom; eauto).
  rewrite dom_stats_of in Hkey. unfold stats_keys in Hkey.
  assert (Hm' : F64.is_finite m = true).
  { apply elem_of_union in Hkey as [Hkey | Hkey];
      [apply elem_of_union in Hkey as [Hkey | Hkey]|];
      apply elem_of_singleton in Hkey; subst key;
      rewrite ?L1, ?L2, ?L3 in Hm; injection Hm as <-; now apply Hfin. }
  split; [exact Hm' | now apply format_1f_one_decimal].
Qed.

Lemma means_of_nonempty_table_finite_witness :
  exists stats,
    calculate_statistics 1%positive (heap_with three_rows) = inr (stats, heap_with three_rows) /\
    forall key m, stats !! key = Some m ->
      F64.is_finite m = true /\ one_decimal (format_1f m) = true.
Proof.
  apply (means_of_nonempty_table_finite (heap_with three_rows) 1%positive three_rows).
  - reflexivity.
  - discriminate.
  - exact wf_three_rows.
  - cbn. lia.
Defined.

(** ** [save_report]: what is on disk afterwards *)

Lemma key_lookup_None fs k : key_lookup fs k = None -> fs !! k = None.
Proof.
  destruct k as [|c [|c' k]]; cbn [key_lookup]; try discriminate; auto.
  destruct (String.eqb c "/"); [discriminate | auto].
Qed.

Lemma key_lookup_insert_eq fs k v :
  key_lookup fs k <> Some Dir -> key_lookup (<[k := v]> fs) k = Some v.
Proof.
  destruct k as [|c [|c' k]]; cbn [key_lookup]; intros H.
  - congruence.
  - destruct (String.eqb c "/"); [congruence | apply lookup_insert_eq].
  - apply lookup_insert_eq.
Qed.

Lemma grows_by_dirs_refl fs : grows_by_dirs fs fs.
Proof. split; auto. Qed.

Lemma grows_by_dirs_trans fs1 fs2 fs3 :
  grows_by_dirs fs1 fs2 -> grows_by_dirs fs2 fs3 -> grows_by_dirs fs1 fs3.
Proof.
  intros [A1 B1] [A2 B2]. split; [auto|].
  intros k n H. destruct (B2 k n H) as [H2 | ->]; [auto | now right].
Qed.

Lemma mkdir_grows p fs : grows_by_dirs fs (snd (mkdir p fs)).
Proof.
  unfold mkdir, path_exists, fs_lookup.
  destruct (is_empty p); [apply grows_by_dirs_refl|].
  destruct (key_lookup fs (path_key p)) eqn:E; [apply grows_by_dirs_refl|].
  destruct (check_parent fs (path_key p)); [apply grows_by_dirs_refl|].
  cbn [snd]. apply key_lookup_None in E. split.
  - intros k n H. rewrite lookup_insert_ne; [exact H | congruence].
  - intros k n H. destruct (decide (path_key p = k)) as [<- | Hne].
    + rewrite lookup_insert_eq in H. right. congruence.
    + rewrite lookup_insert_ne in H by exact Hne. now left.
Qed.

Lemma makedirs_fuel_grows fuel : forall name fs,
  grows_by_dirs fs (snd (makedirs_fuel fuel name fs)).
Proof.
  induction fuel as [|fuel IH]; intros name fs; [apply grows_by_dirs_refl|].
  cbn [makedirs_fuel].
  destruct (path_split name) as [head tail].
  destruct (if is_empty tail then path_split head else (head, tail)) as [head' tail'].
  assert (Hfinal : forall fs0, grows_by_dirs fs fs0 ->
            grows_by_dirs fs
              (snd (match mkdir name fs0 with
                    | (inl e, fs') => if path_isdir fs' name then (inr tt, fs') else (inl e, fs')
                    | ok => ok
                    end))).
  { intros fs0 H0. pose proof (mkdir_grows name fs0) as Hm.
    destruct (mkdir name fs0) as [[e|[]] fs']; cbn [snd] in *.
    - destruct (path_isdir fs' name); cbn [snd]; eapply grows_by_dirs_trans; eauto.
    - eapply grows_by_dirs_trans; eauto. }
  destruct (negb (is_empty head') && negb (is_empty tail') && negb (path_exists fs head')).
  - pose proof (IH head' fs) as Hrec.
    destruct (makedirs_fuel fuel head' fs) as [[e|[]] fs'] eqn:Er; cbn [snd] in Hrec.
    + destruct e; try exact Hrec;
        destruct (String.eqb tail' "."); try exact Hrec; now apply Hfinal.
    + destruct (String.eqb tail' "."); [exact Hrec | now apply Hfinal].
  - apply Hfinal, grows_by_dirs_refl.
Qed.

(** X12: what [save_report] has written can be read back: whenever it
    returns without an error, the path it was given names a regular file
    whose content is exactly the report. *)
Theorem save_report_then_read (report filename : string) (fs fs' : filesystem) :
  save_report report filename fs = (inr tt, fs') ->
  fs_lookup fs' filename = Some (File report).
Proof.
  unfold save_report.
  destruct (makedirs (dirname filename) fs) as [[e|[]] fs1]; [discriminate|].
  unfold open_write, fs_lookup.
  destruct (is_empty filename) eqn:Hemp; [discriminate|].
  destruct (key_lookup fs1 (path_key filename)) as [[|c]|] eqn:Hk.
  - discriminate.
  - intros E. injection E as <-. apply key_lookup_insert_eq. congruence.
  - destruct (check_parent fs1 (path_key filename)); [discriminate|].
    intros E. injection E as <-. apply key_lookup_insert_eq. congruence.
Qed.

Lemma save_report_then_read_witness :
  fs_lookup (<[ ["output"; "analysis_report.txt"] := File "text" ]> (<[ ["output"] := Dir ]> ∅))
    "output/analysis_report.txt" = Some (File "text").
Proof.
  apply (save_report_then_read "text" "output/analysis_report.txt" ∅).
  vm_compute. reflexivity.
Defined.



(** ** [save_report] to a path of the form directory/file *)

Lemma plain_name_inv s :
  plain_name s = true -> is_empty s = false /\ has_sep s = false /\ String.eqb s "." = false.
Proof.
  unfold plain_name. intros H.
  apply andb_true_iff in H as [H H3]. apply andb_true_iff in H as [H1 H2].
  repeat split; now apply negb_true_iff.
Qed.

Lemma rfind1_join d f : has_sep f = false -> rfind1 (path_join d f) = S (String.length d).
Proof.
  intros Hf. unfold path_join. induction d as [|a d IH].
  - change (rfind1 (String sep f) = 1%nat). cbn [rfind1]. rewrite (rfind1_no_sep f Hf).
    reflexivity.
  - change (rfind1 (String a (d +:+ String sep f)) = S (String.length (String a d))).
    cbn [rfind1]. rewrite IH. reflexivity.
Qed.

Lemma substring_full s : substring 0 (String.length s) s = s.
Proof. induction s as [|a s IH]; [reflexivity|]. cbn [String.length substring]. now rewrite IH. Qed.

Lemma substring_join_head d f :
  substring 0 (S (String.length d)) (path_join d f) = d +:+ String sep EmptyString.
Proof.
  unfold path_join. induction d as [|a d IH].
  - change (substring 0 1 (String sep f) = String sep EmptyString).
    cbn [substring]. destruct f; reflexivity.
  - change (substring 0 (S (S (String.length d))) (String a (d +:+ String sep f))
            = String a (d +:+ String sep EmptyString)).
    cbn [substring]. now rewrite IH.
Qed.

Lemma length_join d f :
  String.length (path_join d f) = (S (String.length d) + String.length f)%nat.
Proof.
  unfold path_join. induction d as [|a d IH]; [reflexivity|].
  change (String.length (String a (d +:+ String sep f))
          = (S (String.length (String a d)) + String.length f)%nat).
  cbn [String.length]. rewrite IH. lia.
Qed.

Lemma substring_join_tail d f :
  substring (S (String.length d)) (String.length f) (path_join d f) = f.
Proof.
  unfold path_join. induction d as [|a d IH].
  - change (substring 1 (String.length f) (String sep f) = f).
    cbn [substring]. apply substring_full.
  - change (substring (S (S (String.length d))) (String.length f)
              (String a (d +:+ String sep f)) = f).
    cbn [substring]. exact IH.
Qed.

Lemma rstrip_join d :
  has_sep d = false -> rstrip (d +:+ String sep EmptyString) = d.
Proof.
  induction d as [|a d IH]; intros Hd.
  - reflexivity.
  - change (has_sep (String a d)) with (Ascii.eqb a sep || has_sep d) in Hd.
    apply orb_false_iff in Hd as [Ha Hd].
    change (rstrip (String a (d +:+ String sep EmptyString)) = String a d).
    cbn [rstrip]. rewrite (IH Hd). destruct d; [now rewrite Ha | reflexivity].
Qed.

Lemma all_sep_join d :
  is_empty d = false -> has_sep d = false -> all_sep (d +:+ String sep EmptyString) = false.
Proof.
  destruct d as [|a d]; [discriminate|]. intros _ Hd.
  change (has_sep (String a d)) with (Ascii.eqb a sep || has_sep d) in Hd.
  apply orb_false_iff in Hd as [Ha _].
  change (Ascii.eqb a sep && all_sep (d +:+ String sep EmptyString) = false).
  now rewrite Ha.
Qed.

Lemma is_empty_join d : is_empty (d +:+ String sep EmptyString) = false.
Proof. destruct d; reflexivity. Qed.

Lemma dirname_join d f :
  is_empty d = false -> has_sep d = false -> has_sep f = false ->
  dirname (path_join d f) = d.
Proof.
  intros Hd1 Hd2 Hf. unfold dirname.
  rewrite (rfind1_join d f Hf), substring_join_head, is_empty_join, (all_sep_join d Hd1 Hd2).
  cbn [negb andb]. now apply rstrip_join.
Qed.

Lemma path_split_no_sep d : has_sep d = false -> path_split d = (EmptyString, d).
Proof.
  intros Hd. unfold path_split. rewrite (rfind1_no_sep d Hd), substring_0_0, Nat.sub_0_r.
  cbn [is_empty negb andb]. now rewrite substring_full.
Qed.

Lemma components_no_sep s : has_sep s = false -> components s = [s].
Proof.
  induction s as [|a s IH]; intros Hs; [reflexivity|].
  change (has_sep (String a s)) with (Ascii.eqb a sep || has_sep s) in Hs.
  apply orb_false_iff in Hs as [Ha Hs].
  cbn [components]. rewrite Ha, (IH Hs). reflexivity.
Qed.

Lemma components_join d f :
  has_sep d = false -> components (path_join d f) = d :: components f.
Proof.
  unfold path_join. induction d as [|a d IH]; intros Hd.
  - change (components (String sep f) = EmptyString :: components f).
    cbn [components]. change (Ascii.eqb sep sep) with true. reflexivity.
  - change (has_sep (String a d)) with (Ascii.eqb a sep || has_sep d) in Hd.
    apply orb_false_iff in Hd as [Ha Hd].
    change (components (String a (d +:+ String sep f)) = String a d :: components f).
    cbn [components]. rewrite Ha, (IH Hd). reflexivity.
Qed.

Lemma is_abs_plain d : is_empty d = false -> has_sep d = false -> is_abs d = false.
Proof.
  destruct d as [|a d]; [discriminate|]. intros _ Hd.
  change (has_sep (String a d)) with (Ascii.eqb a sep || has_sep d) in Hd.
  now apply orb_false_iff in Hd as [Ha _].
Qed.

Lemma path_key_plain d : plain_name d = true -> path_key d = [d].
Proof.
  intros Hd. destruct (plain_name_inv d Hd) as (H1 & H2 & H3).
  unfold path_key. rewrite (is_abs_plain d H1 H2), (components_no_sep d H2).
  cbn [List.filter app]. now rewrite H1, H3.
Qed.

Lemma path_key_join d f :
  plain_name d = true -> plain_name f = true -> path_key (path_join d f) = [d; f].
Proof.
  intros Hd Hf. destruct (plain_name_inv d Hd) as (D1 & D2 & D3).
  destruct (plain_name_inv f Hf) as (F1 & F2 & F3).
  unfold path_key.
  assert (Habs : is_abs (path_join d f) = false).
  { unfold path_join. destruct d as [|a d]; [discriminate|].
    change (has_sep (String a d)) with (Ascii.eqb a sep || has_sep d) in D2.
    now apply orb_false_iff in D2 as [Ha _]. }
  rewrite Habs, (components_join d f D2), (components_no_sep f F2).
  cbn [List.filter app]. now rewrite D1, D3, F1, F3.
Qed.

Lemma is_empty_path_join d f : is_empty (path_join d f) = false.
Proof. unfold path_join. destruct d; reflexivity. Qed.

Lemma not_root_plain d : plain_name d = true -> String.eqb d "/" = false.
Proof.
  intros Hd. destruct (plain_name_inv d Hd) as (_ & H2 & _).
  apply String.eqb_neq. intros ->. discriminate.
Qed.

Lemma makedirs_plain d fs :
  plain_name d = true ->
  makedirs d fs =
  match fs !! [d] with
  | None => (inr tt, <[ [d] := Dir ]> fs)
  | Some Dir => (inr tt, fs)
  | Some (File _) => (inl FileExistsError, fs)
  end.
Proof.
  intros Hd. destruct (plain_name_inv d Hd) as (D1 & D2 & D3).
  unfold makedirs. cbn [makedirs_fuel]. rewrite (path_split_no_sep d D2), D1.
  cbn [is_empty negb andb].
  unfold mkdir, path_exists, path_isdir, fs_lookup. rewrite D1, (path_key_plain d Hd).
  cbn [key_lookup]. rewrite (not_root_plain d Hd).
  destruct (fs !! [d]) as [[|c]|] eqn:E; cbn [snd fst]; rewrite ?E; try reflexivity.
Qed.

Lemma save_report_join report d f fs :
  plain_name d = true -> plain_name f = true ->
  save_report report (path_join d f) fs =
  match fs !! [d], fs !! [d; f] with
  | Some (File _), _ => (inl FileExistsError, fs)
  | _, Some Dir => (inl IsADirectoryError, <[ [d] := Dir ]> fs)
  | _, _ => (inr tt, saved report d f fs)
  end.
Proof.
  intros Hd Hf. destruct (plain_name_inv d Hd) as (D1 & D2 & D3).
  destruct (plain_name_inv f Hf) as (F1 & F2 & F3).
  unfold save_report. rewrite (dirname_join d f D1 D2 F2), (makedirs_plain d fs Hd).
  assert (Hopen : forall fs1, fs1 !! [d] = Some Dir ->
            open_write (path_join d f) report fs1 =
            match fs1 !! [d; f] with
            | Some Dir => (inl IsADirectoryError, fs1)
            | _ => (inr tt, <[ [d; f] := File report ]> fs1)
            end).
  { intros fs1 H1. unfold open_write, fs_lookup, check_parent.
    rewrite is_empty_path_join, (path_key_join d f Hd Hf).
    cbn [key_lookup removelast]. rewrite (not_root_plain d Hd), H1.
    destruct (fs1 !! [d; f]) as [[|c]|]; reflexivity. }
  destruct (fs !! [d]) as [[|c]|] eqn:E.
  - rewrite (Hopen fs E). unfold saved. rewrite (insert_id fs [d] Dir E).
    destruct (fs !! [d; f]) as [[|c]|]; reflexivity.
  - reflexivity.
  - rewrite (Hopen (<[ [d] := Dir ]> fs)) by apply lookup_insert_eq.
    rewrite lookup_insert_ne by congruence. unfold saved.
    destruct (fs !! [d; f]) as [[|c]|]; reflexivity.
Qed.



Lemma saved_saved r1 r2 d f fs : saved r2 d f (saved r1 d f fs) = saved r2 d f fs.
Proof.
  unfold saved. apply map_eq. intros k. rewrite !lookup_insert.
  repeat case_decide; congruence.
Qed.

Lemma save_report_join_success report d f fs fs1 :
  plain_name d = true -> plain_name f = true ->
  save_report report (path_join d f) fs = (inr tt, fs1) ->
  fs1 = saved report d f fs.
Proof.
  intros Hd Hf. rewrite (save_report_join report d f fs Hd Hf).
  destruct (fs !! [d]) as [[|c]|], (fs !! [d; f]) as [[|c']|]; congruence.
Qed.

Lemma save_report_join_again r1 r2 d f fs :
  plain_name d = true -> plain_name f = true ->
  save_report r2 (path_join d f) (saved r1 d f fs) = (inr tt, saved r2 d f fs).
Proof.
  intros Hd Hf. rewrite (save_report_join r2 d f _ Hd Hf).
  unfold saved at 1 2.
  rewrite (lookup_insert_ne _ [d; f] [d]) by congruence.
  rewrite !lookup_insert_eq. now rewrite saved_saved.
Qed.

(** X15: saving again overwrites: after a successful [save_report] to a
    directory/file path, a second [save_report] to the same path succeeds
    and leaves the file system exactly as if only the second report had been
    saved; saving the same report twice changes nothing the second time. *)
Theorem save_report_overwrites (r1 r2 d f : string) (fs fs1 : filesystem) :
  plain_name d = true -> plain_name f = true ->
  save_report r1 (path_join d f) fs = (inr tt, fs1) ->
  save_report r2 (path_join d f) fs1 = save_report r2 (path_join d f) fs /\
  save_report r1 (path_join d f) fs1 = (inr tt, fs1).
Proof.
  intros Hd Hf H1.
  pose proof (save_report_join_success r1 d f fs fs1 Hd Hf H1) as ->.
  rewrite !save_report_join_again by assumption. split; [|reflexivity].
  rewrite (save_report_join r1 d f fs Hd Hf) in H1.
  rewrite (save_report_join r2 d f fs Hd Hf).
  destruct (fs !! [d]) as [[|c]|], (fs !! [d; f]) as [[|c']|]; congruence.
Qed.

Lemma save_report_overwrites_witness :
  save_report "new" "output/analysis_report.txt"
    (saved "old" "output" "analysis_report.txt" ∅)
  = save_report "new" "output/analysis_report.txt" ∅.
Proof.
  change "output/analysis_report.txt" with (path_join "output" "analysis_report.txt").
  apply (save_report_overwrites "old" "new" "output" "analysis_report.txt" ∅
           (saved "old" "output" "analysis_report.txt" ∅)); reflexivity.
Defined.

(** ** [main] *)

Section MainProperties.

Context {load_error : Type}.
Variable load_data : string -> filesystem -> heap -> load_error + (loc * heap).

(** Once the table is loaded, [main] is the saving of its report. *)
Lemma main_after_load (w : world) (data : loc) (h0 : heap) (rows : list Reading) :
  load_data "health_data.csv" (w_fs w) (w_heap w) = inr (data, h0) ->
  h0 !! data = Some (StructArr rows) ->
  Z.of_nat (length rows) < 2 ^ 63 ->
  exists h1,
    h1 !! data = Some (StructArr rows) /\
    main load_data w =
    match save_report (report_of rows) "output/analysis_report.txt" (w_fs w) with
    | (inl e, fs) => (Some (SaveError e), {| w_heap := h1; w_fs := fs; w_stdout := w_stdout w |})
    | (inr _, fs) =>
        (None, {| w_heap := h1; w_fs := fs;
                  w_stdout := w_stdout w ++ [completion_message] |})
    end.
Proof.
  intros Hload Hd Hlen.
  destruct (find_abnormal_readings_run h0 data rows Hd) as (h1 & R & _ & Hd1).
  exists h1. split; [exact Hd1|].
  unfold main. rewrite Hload, (calculate_statistics_run h0 data rows Hd), R.
  unfold len. rewrite Hd1.
  destruct (stats_of_lookup rows) as (S1 & S2 & S3).
  destruct (abnormal_of_lookup rows Hlen) as (A1 & A2 & A3).
  rewrite (generate_report_template _ _ (Z.of_nat (length rows)) _ _ _ _ _ _
             S1 S2 S3 A1 A2 A3).
  reflexivity.
Qed.

Lemma save_report_failure_grows report filename fs e :
  fst (save_report report filename fs) = inl e ->
  grows_by_dirs fs (snd (save_report report filename fs)).
Proof.
  unfold save_report, makedirs.
  pose proof (makedirs_fuel_grows (S (String.length (dirname filename))) (dirname filename) fs)
    as Hg.
  destruct (makedirs_fuel _ (dirname filename) fs) as [[e'|[]] fs1]; cbn [snd] in *;
    [intros _; exact Hg|].
  unfold open_write.
  destruct (fs_lookup fs1 filename) as [[|c]|]; cbn [fst snd];
    try (intros _; exact Hg); try discriminate.
  destruct (is_empty filename); cbn [fst snd]; [intros _; exact Hg|].
  destruct (check_parent fs1 (path_key filename)); cbn [fst snd];
    [intros _; exact Hg | discriminate].
Qed.


(** X17: an aborted run leaves no trace of a report: whenever [main] returns
    an error (from loading, from the analysis or from saving), nothing has
    been printed, every entry of the file system is still there unchanged,
    and no regular file has been created: the only entries that may have
    appeared are directories. *)
Theorem main_error_leaves_no_report (w w' : world) (e : main_error load_error) :
  main load_data w = (Some e, w') ->
  w_stdout w' = w_stdout w /\
  (forall k n, w_fs w !! k = Some n -> w_fs w' !! k = Some n) /\
  (forall k n, w_fs w' !! k = Some n -> w_fs w !! k = Some n \/ n = Dir).
Proof.
  unfold main.
  destruct (load_data _ _ _) as [le|[data h0]].
  { intros E. injection E as _ <-. repeat split; auto. }
  destruct (calculate_statistics data h0) as [e1|[stats h1]].
  { intros E. injection E as _ <-. repeat split; auto. }
  destruct (find_abnormal_readings data h1) as [e2|[abnormal h2]].
  { intros E. injection E as _ <-. repeat split; auto. }
  destruct (len data h2) as [e3|[total h3]].
  { intros E. injection E as _ <-. repeat split; auto. }
  destruct (generate_report stats abnormal total) as [e4|report].
  { intros E. injection E as _ <-. repeat split; auto. }
  pose proof (save_report_failure_grows report "output/analysis_report.txt" (w_fs w)) as Hg.
  destruct (save_report report "output/analysis_report.txt" (w_fs w)) as [[e5|[]] fs];
    [|discriminate].
  intros E. injection E as _ <-. cbn [w_stdout w_fs].
  destruct (Hg e5 eq_refl) as [Hkeep Hnew]. cbn [snd] in *. repeat split; auto.
Qed.

(** X18: running [main] again on unchanged input reproduces the same output:
    if a first run succeeded on a table, and the second run loads a table
    with the same rows, the second run succeeds too and leaves the file
    system exactly as the first run left it. *)
Theorem main_twice_same_output
    (w w1 : world) (data data' : loc) (h0 h0' : heap) (rows : list Reading) :
  load_data "health_data.csv" (w_fs w) (w_heap w) = inr (data, h0) ->
  h0 !! data = Some (StructArr rows) ->
  Z.of_nat (length rows) < 2 ^ 63 ->
  main load_data w = (None, w1) ->
  load_data "health_data.csv" (w_fs w1) (w_heap w1) = inr (data', h0') ->
  h0' !! data' = Some (StructArr rows) ->
  exists w2,
    main load_data w1 = (None, w2) /\
    w_fs w2 = w_fs w1 /\
    w_stdout w2 = w_stdout w ++ [completion_message; completion_message].
Proof.
  intros Hload Hd Hlen Hrun Hload' Hd'.
  destruct (main_after_load w data h0 rows Hload Hd Hlen) as (h1 & _ & E).
  rewrite E in Hrun.
  destruct (save_report (report_of rows) "output/analysis_report.txt" (w_fs w))
    as [[e|[]] fs1] eqn:Es; [discriminate|].
  injection Hrun as <-.
  change "output/analysis_report.txt" with (path_join "output" "analysis_report.txt") in Es.
  apply save_report_join_success in Es; [|reflexivity..]. subst fs1.
  destruct (main_after_load _ data' h0' rows Hload' Hd' Hlen) as (h2 & _ & E').
  cbn [w_fs w_heap w_stdout] in E'.
  change "output/analysis_report.txt" with (path_join "output" "analysis_report.txt") in E'.
  rewrite save_report_join_again in E' by reflexivity.
  eexists. split; [exact E'|]. cbn [w_fs w_stdout]. split; [reflexivity|].
  now rewrite <- app_assoc.
Qed.

End MainProperties.


Lemma main_error_leaves_no_report_witness :
  let w' := snd (main load_three_rows blocked_world) in
  w_stdout w' = w_stdout blocked_world /\
  (forall k n, w_fs blocked_world !! k = Some n -> w_fs w' !! k = Some n) /\
  (forall k n, w_fs w' !! k = Some n -> w_fs blocked_world !! k = Some n \/ n = Dir).
Proof.
  intros w'.
  apply (main_error_leaves_no_report load_three_rows blocked_world w'
           (SaveError FileExistsError)).
  vm_compute. reflexivity.
Defined.

Lemma main_twice_same_output_witness :
  exists w2,
    main load_three_rows (snd (main load_three_rows sample_world)) = (None, w2) /\
    w_fs w2 = w_fs (snd (main load_three_rows sample_world)) /\
    w_stdout w2 = [] ++ [completion_message; completion_message].
Proof.
  eapply (main_twice_same_output load_three_rows sample_world
            (snd (main load_three_rows sample_world))
            (fresh (dom (∅ : heap))) _
            (<[fresh (dom (∅ : heap)) := StructArr three_rows]> ∅) _ three_rows).
  - reflexivity.
  - apply lookup_insert_eq.
  - cbn; lia.
  - vm_compute. reflexivity.
  - vm_compute. reflexivity.
  - vm_compute. reflexivity.
Defined.
